(** * react-hooks: the stable-callback hook and the persisted-state hook

    A shallow embedding of [src/use-event-callback.ts] and
    [src/use-local-storage.ts].  JavaScript values, exceptions, the browser's
    key-value storage, the console and the React hook cells are modelled
    explicitly; effectful code is written in a state-and-exception monad over
    the browser world. *)

From Stdlib Require Import ZArith Ascii String List.
From stdpp Require Import base decidable option list gmap strings pretty.

Open Scope string_scope.

(** ** JavaScript exceptions and completions *)

Inductive js_error : Type :=
  | JsError (name message : string).

#[global] Instance js_error_eq_dec : EqDecision js_error.
Proof. solve_decision. Defined.

(** The outcome of evaluating a piece of JavaScript: it returns normally or
    it throws. *)
Inductive Completion (A : Type) : Type :=
  | Normal (a : A)
  | Throw (e : js_error).
Arguments Normal {A} a.
Arguments Throw {A} e.

Definition is_throw {A} (c : Completion A) : bool :=
  match c with Throw _ => true | Normal _ => false end.

(** ** use-event-callback.ts *)

Module EventCallback.

(** Which React effect hook [useIsomorphicLayoutEffect] stands for. *)
Inductive EffectKind := Layout | Passive.

#[global] Instance EffectKind_eq_dec : EqDecision EffectKind.
Proof. solve_decision. Defined.

(** Modelled from the spec: [useIsomorphicLayoutEffect] (its file,
    use-isomorphic-layout-effect.ts, is not among the sources) is the layout
    effect hook where a rendering surface exists and the plain effect hook
    elsewhere. *)
Definition useIsomorphicLayoutEffect (has_window : bool) : EffectKind :=
  if has_window then Layout else Passive.

(** The message of the error thrown by the function [useRef] is initialised
    with. *)
Definition rendering_error : js_error :=
  JsError "Error" "cannot call an event handler while rendering".

(** A function object created by evaluating the arrow
    [(...args) => ref.current(...args)]: [w_stamp] is the render that
    evaluated it, [w_ref] the ref object it closes over.  Two wrappers are
    the same JavaScript object exactly when they are equal. *)
Record Wrapper := { w_stamp : nat; w_ref : nat }.

#[global] Instance Wrapper_eq_dec : EqDecision Wrapper.
Proof. solve_decision. Defined.

Section Hook.
(** [F] is the type of the function objects the caller supplies, equality
    on [F] is object identity ([Object.is]); [call] applies one to an
    argument list and [throw] is the behaviour of code that throws. *)
Context {F Args B : Type} `{EqDecision F}.
Variable call : F -> Args -> B.
Variable throw : js_error -> B.

(** The contents of [ref.current]. *)
Inductive RefFn :=
  | InitialThrower
  | Supplied (fn : F).

Definition call_ref (r : RefFn) (args : Args) : B :=
  match r with
  | InitialThrower => throw rendering_error
  | Supplied fn => call fn args
  end.

(** The hook's cells, kept by React between renders of one component
    instance. *)
Record Cells := {
  renders : nat;                       (* renders so far *)
  ref_obj : nat;                       (* identity of the object useRef returned *)
  ref_current : RefFn;                 (* ref.current *)
  effect_deps : F;                     (* the [fn] dependency of the last render *)
  pending : option (EffectKind * F);   (* effect scheduled and not yet run *)
  memo_fn : Wrapper;                   (* useCallback: the memoised function *)
  memo_deps : nat                      (* useCallback: its dependency [ref] *)
}.

(** One render of [useEventCallback(fn)].  [prev] holds the cells of the
    previous render, [None] on the first one, for which [useRef]
    allocates the ref object [alloc]. *)
Definition useEventCallback (has_window : bool) (alloc : nat)
    (prev : option Cells) (fn : F) : Wrapper * Cells :=
  (* const ref = useRef(() => { throw new Error(...) }) *)
  let ref := match prev with
             | None => alloc
             | Some c => ref_obj c
             end in
  let current := match prev with
                 | None => InitialThrower
                 | Some c => ref_current c
                 end in
  (* useIsomorphicLayoutEffect(() => { ref.current = fn }, [fn]) *)
  let scheduled := Some (useIsomorphicLayoutEffect has_window, fn) in
  let effect := match prev with
                | None => scheduled
                | Some c => if decide (fn = effect_deps c) then pending c else scheduled
                end in
  (* return useCallback((...args) => ref.current(...args), [ref]) *)
  let n := match prev with None => 0 | Some c => renders c end in
  let arrow := {| w_stamp := n; w_ref := ref |} in
  let memo := match prev with
              | None => arrow
              | Some c => if bool_decide (ref = memo_deps c) then memo_fn c else arrow
              end in
  (memo, {| renders := S n;
            ref_obj := ref;
            ref_current := current;
            effect_deps := fn;
            pending := effect;
            memo_fn := memo;
            memo_deps := ref |}).

(** React runs the effects of kind [k]: a pending [ref.current = fn]. *)
Definition run_effects (k : EffectKind) (c : Cells) : Cells :=
  match pending c with
  | Some (k', fn) =>
      if decide (k' = k)
      then {| renders := renders c; ref_obj := ref_obj c;
              ref_current := Supplied fn;
              effect_deps := effect_deps c; pending := None;
              memo_fn := memo_fn c; memo_deps := memo_deps c |}
      else c
  | None => c
  end.

(** Invoking the wrapper: [ref.current(...args)], whatever the ref holds
    at the time of the call. *)
Definition call_wrapper (c : Cells) (args : Args) : B :=
  call_ref (ref_current c) args.

(** The first render of a component instance, and its life after it. *)
Definition mount (has_window : bool) (alloc : nat) (fn : F) : Wrapper * Cells :=
  useEventCallback has_window alloc None fn.

Inductive Step :=
  | Render (fn : F)
  | RunEffects (k : EffectKind).

Definition step (has_window : bool) (s : Step) (c : Cells) : option Wrapper * Cells :=
  match s with
  | Render fn =>
      let '(w, c') := useEventCallback has_window (ref_obj c) (Some c) fn in
      (Some w, c')
  | RunEffects k => (None, run_effects k c)
  end.

(** Runs a trace; returns the wrappers the renders returned, in order. *)
Fixpoint exec (has_window : bool) (tr : list Step) (c : Cells) : list Wrapper * Cells :=
  match tr with
  | [] => ([], c)
  | s :: tr' =>
      let '(ow, c') := step has_window s c in
      let '(ws, c'') := exec has_window tr' c' in
      (match ow with Some w => w :: ws | None => ws end, c'')
  end.

(** The function supplied to the latest render of a trace. *)
Fixpoint last_supplied (fn0 : F) (tr : list Step) : F :=
  match tr with
  | [] => fn0
  | Render fn :: tr' => last_supplied fn tr'
  | RunEffects _ :: tr' => last_supplied fn0 tr'
  end.

(** Whether the effect hook has run at least once in a trace that follows
    a first render under [has_window]. *)
Definition first_effect_ran (has_window : bool) (tr : list Step) : bool :=
  existsb (fun s => match s with
                    | RunEffects k => bool_decide (k = useIsomorphicLayoutEffect has_window)
                    | Render _ => false
                    end) tr.

End Hook.

Arguments RefFn : clear implicits.
Arguments Cells : clear implicits.
Arguments Step : clear implicits.

End EventCallback.

(** ** JavaScript values

    The values a persisted entry can hold.  Numbers are restricted to the
    integers; an object is the list of its own enumerable properties in
    property order. *)

#[local] Set Warnings "-register-all".

Inductive jsval : Type :=
  | VUndefined
  | VNull
  | VBool (b : bool)
  | VNum (n : Z)
  | VStr (s : string)
  | VArr (xs : list jsval)
  | VObj (fields : list (string * jsval)).

(** [String(v)], the coercion [Storage.setItem] applies to its argument. *)
Fixpoint ToString (v : jsval) : string :=
  match v with
  | VUndefined => "undefined"
  | VNull => "null"
  | VBool true => "true"
  | VBool false => "false"
  | VNum n => pretty n
  | VStr s => s
  | VArr xs =>
      (fix join (l : list jsval) : string :=
         match l with
         | [] => EmptyString
         | x :: rest =>
             let e := match x with
                      | VUndefined | VNull => EmptyString
                      | _ => ToString x
                      end in
             match rest with
             | [] => e
             | _ :: _ => e ++ "," ++ join rest
             end
         end) xs
  | VObj _ => "[object Object]"
  end.

(** Deep equality: same shape and same leaves, the order of an object's
    properties being irrelevant. *)
Fixpoint deep_equal (a b : jsval) : bool :=
  match a, b with
  | VUndefined, VUndefined => true
  | VNull, VNull => true
  | VBool x, VBool y => bool_decide (x = y)
  | VNum x, VNum y => bool_decide (x = y)
  | VStr x, VStr y => bool_decide (x = y)
  | VArr xs, VArr ys =>
      (fix all2 (l : list jsval) (r : list jsval) : bool :=
         match l, r with
         | [], [] => true
         | x :: l', y :: r' => deep_equal x y && all2 l' r'
         | _, _ => false
         end) xs ys
  | VObj fs, VObj gs =>
      bool_decide (length fs = length gs) &&
      (fix props (l : list (string * jsval)) : bool :=
         match l with
         | [] => true
         | (k, x) :: l' =>
             match list_find (fun kv => bool_decide (kv.1 = k)) gs with
             | Some (_, (_, y)) => deep_equal x y && props l'
             | None => false
             end
         end) fs
  | _, _ => false
  end.

(** JavaScript truthiness of a [string | null]. *)
Definition truthy (s : option string) : bool :=
  match s with
  | Some s => negb (bool_decide (s = EmptyString))
  | None => false
  end.

(** [value ?? s] with the empty string for [s] *)
Definition or_empty (s : option string) : string :=
  match s with Some s => s | None => EmptyString end.

(** [item as unknown as T]: a [string | null] seen as a value. *)
Definition item_as_value (s : option string) : jsval :=
  match s with Some s => VStr s | None => VNull end.

(** The global [JSON] object.  [JSON_stringify] returns [None] where the
    built-in returns [undefined]. *)
Class JSONBuiltins := {
  JSON_parse : string -> Completion jsval;
  JSON_stringify : jsval -> Completion (option string)
}.

(** What [setItem] stores for the result of [JSON.stringify]. *)
Definition stringified (r : option string) : string :=
  match r with Some s => s | None => "undefined" end.

(** ** The browser world *)

(** [SetStateAction<T>]: a value or an updater of the previous value. *)
Inductive SetStateAction : Type :=
  | Literal (v : jsval)
  | Updater (f : jsval -> Completion jsval).

(** [UseLocalStorageOptions<T>] *)
Record Options := {
  raw : bool;
  serializer : option (jsval -> Completion string);
  deserializer : option (string -> Completion jsval)
}.

(** [options = {}] *)
Definition default_options : Options :=
  {| raw := false; serializer := None; deserializer := None |}.

(** The arguments of one call of [useLocalStorage]. *)
Record Props := {
  key : string;
  initialValue : jsval;
  options : Options
}.

(** The variables the closures of one render capture. *)
Record Scope := {
  sc_inst : nat;            (* the component instance, naming its state cell *)
  sc_props : Props;
  sc_storedValue : jsval
}.

Inductive Event : Type :=
  | StorageEvent (k : option string)   (* type "storage"; the key is null after clear() *)
  | PlainEvent (type : string).        (* new Event(type): it has no key property *)

Definition event_type (ev : Event) : string :=
  match ev with
  | StorageEvent _ => "storage"
  | PlainEvent t => t
  end.

(** [(event as StorageEvent)?.key] *)
Definition event_key (ev : Event) : option string :=
  match ev with
  | StorageEvent k => k
  | PlainEvent _ => None
  end.

(** The area behind [window.localStorage]: its entries and, when the browser
    enforces one, the number of characters it may hold. *)
Record Storage := {
  items : gmap string string;
  quota : option nat
}.

Definition storage_size (m : gmap string string) : nat :=
  map_fold (fun k v n => String.length k + String.length v + n) 0 m.

Definition within_quota (st : Storage) (m : gmap string string) : bool :=
  match quota st with
  | Some q => bool_decide (storage_size m <= q)
  | None => true
  end.

(** Modelled from the spec: [useEventListener] (use-event-listener.ts is not
    among the sources) keeps a listener attached to the window while the
    component is mounted and always invokes the latest handler; an attached
    listener is recorded as the event name with the instance and the
    arguments its current [handleStorageChange] closes over. *)
Record Listener := {
  l_type : string;
  l_inst : nat;
  l_props : Props
}.

Record Window := {
  localStorage : option Storage;   (* None: reading window.localStorage throws *)
  listeners : list Listener;       (* in order of attachment *)
  dispatched : list Event          (* events passed to dispatchEvent, oldest first *)
}.

Inductive LogArg : Type :=
  | LStr (s : option string)
  | LErr (e : js_error).

(** One call of [console.warn]. *)
Inductive LogEntry : Type :=
  | Warn (message : string) (detail : LogArg).

Record World := {
  window : option Window;     (* None: typeof window === "undefined" *)
  console : list LogEntry;    (* oldest first *)
  cells : gmap nat jsval      (* the useState cell of each hook instance *)
}.

Definition with_window (win : Window) (w : World) : World :=
  {| window := Some win; console := console w; cells := cells w |}.

Definition with_items (m : gmap string string) (win : Window) : Window :=
  {| localStorage :=
       match localStorage win with
       | Some st => Some {| items := m; quota := quota st |}
       | None => None
       end;
     listeners := listeners win;
     dispatched := dispatched win |}.

(** ** The monad of effectful JavaScript *)

Definition M (A : Type) : Type := World -> Completion A * World.

Definition ret {A} (a : A) : M A := fun w => (Normal a, w).

Definition bind {A B} (m : M A) (k : A -> M B) : M B :=
  fun w =>
    match m w with
    | (Normal a, w') => k a w'
    | (Throw e, w') => (Throw e, w')
    end.

Definition lift {A} (c : Completion A) : M A := fun w => (c, w).

Definition raise {A} (e : js_error) : M A := lift (Throw e).

(** [try { m } catch (e) { h e }] *)
Definition try_catch {A} (m : M A) (h : js_error -> M A) : M A :=
  fun w =>
    match m w with
    | (Normal a, w') => (Normal a, w')
    | (Throw e, w') => h e w'
    end.

Notation "'let*' x ':=' m 'in' k" := (bind m (fun x => k))
  (at level 10, x name, m at level 100, k at level 200, only parsing).
Notation "m ';;;' k" := (bind m (fun _ => k))
  (at level 100, k at level 200, right associativity, only parsing).

(** *** Browser primitives *)

Definition ReferenceError : js_error := JsError "ReferenceError" "window is not defined".
Definition SecurityError : js_error := JsError "SecurityError" "The operation is insecure.".
Definition QuotaExceededError : js_error := JsError "QuotaExceededError" "The quota has been exceeded.".

(** [typeof window === "undefined"] *)
Definition typeof_window_undefined : M bool :=
  fun w => (Normal (match window w with None => true | Some _ => false end), w).

(** [window.localStorage] *)
Definition window_localStorage : M Storage :=
  fun w =>
    match window w with
    | None => (Throw ReferenceError, w)
    | Some win =>
        match localStorage win with
        | None => (Throw SecurityError, w)
        | Some st => (Normal st, w)
        end
    end.

(** [storage.getItem(key)] *)
Definition getItem (st : Storage) (k : string) : M (option string) :=
  ret (items st !! k).

(** [storage.setItem(key, s)] on the window's storage area. *)
Definition setItem (k s : string) : M unit :=
  fun w =>
    match window w with
    | None => (Throw ReferenceError, w)
    | Some win =>
        match localStorage win with
        | None => (Throw SecurityError, w)
        | Some st =>
            let m := <[k := s]> (items st) in
            if within_quota st m
            then (Normal tt, with_window (with_items m win) w)
            else (Throw QuotaExceededError, w)
        end
    end.

Definition console_warn (message : string) (detail : LogArg) : M unit :=
  fun w => (Normal tt,
            {| window := window w;
               console := console w ++ [Warn message detail];
               cells := cells w |}).

(** The state setter [useState] returned to instance [inst]. *)
Definition setStoredValue (inst : nat) (v : jsval) : M unit :=
  fun w => (Normal tt,
            {| window := window w;
               console := console w;
               cells := <[inst := v]> (cells w) |}).

(** ** use-local-storage.ts *)

Definition quote : string := String (ascii_of_nat 34) EmptyString.

Section LocalStorage.
Context `{JSONBuiltins}.

Definition parseJSON (value : option string) : M jsval :=
  try_catch
    (if bool_decide (value = Some "undefined")
     then ret VUndefined
     else lift (JSON_parse (or_empty value)))
    (fun _ =>
       console_warn "Unable to parse value:" (LStr value) ;;;
       ret VUndefined).

Definition readValue (p : Props) : M jsval :=
  let* no_window := typeof_window_undefined in
  if no_window then ret (initialValue p)
  else
    try_catch
      (let* st := window_localStorage in
       let* item := getItem st (key p) in
       if raw (options p) then ret (item_as_value item)
       else
         match deserializer (options p) with
         | Some deserialize =>
             if truthy item then lift (deserialize (or_empty item))
             else ret (initialValue p)
         | None =>
             if truthy item then parseJSON item
             else ret (initialValue p)
         end)
      (fun error =>
         console_warn ("Unable to get value for key " ++ quote ++ key p ++ quote ++ ":")
                      (LErr error) ;;;
         ret (initialValue p)).

(** [event?.key && event.key !== key] *)
Definition skips (p : Props) (event : Event) : bool :=
  truthy (event_key event) && negb (bool_decide (event_key event = Some (key p))).

Definition handleStorageChange (inst : nat) (p : Props) (event : Event) : M unit :=
  if skips p event
  then ret tt
  else
    let* v := readValue p in
    setStoredValue inst v.

(** The listeners of one event type run in order of attachment; what a
    listener throws is reported by the browser and does not reach the code
    that dispatched the event. *)
Fixpoint run_listeners (ls : list Listener) (event : Event) (w : World) : World :=
  match ls with
  | [] => w
  | l :: ls' =>
      let w' :=
        if bool_decide (l_type l = event_type event)
        then snd (handleStorageChange (l_inst l) (l_props l) event w)
        else w in
      run_listeners ls' event w'
  end.

(** [window.dispatchEvent(event)] *)
Definition window_dispatchEvent (event : Event) : M bool :=
  fun w =>
    match window w with
    | None => (Throw ReferenceError, w)
    | Some win =>
        let win' := {| localStorage := localStorage win;
                       listeners := listeners win;
                       dispatched := dispatched win ++ [event] |} in
        (Normal true, run_listeners (listeners win) event (with_window win' w))
    end.

(** The function handed to [useEventCallback]. *)
Definition setValue (sc : Scope) (value : SetStateAction) : M unit :=
  let p := sc_props sc in
  let* no_window := typeof_window_undefined in
  if no_window then ret tt
  else
    try_catch
      (let* newValue :=
         match value with
         | Updater f => lift (f (sc_storedValue sc))
         | Literal v => ret v
         end in
       (if raw (options p) then
          window_localStorage ;;;
          setItem (key p) (ToString newValue)
        else
          match serializer (options p) with
          | Some serialize =>
              window_localStorage ;;;
              let* s := lift (serialize newValue) in
              setItem (key p) s
          | None =>
              window_localStorage ;;;
              let* s := lift (JSON_stringify newValue) in
              setItem (key p) (stringified s)
          end) ;;;
       setStoredValue (sc_inst sc) newValue ;;;
       window_dispatchEvent (PlainEvent "local-storage") ;;;
       ret tt)
      (fun error =>
         console_warn ("Unable to store value for key " ++ quote ++ key p ++ quote ++ ":")
                      (LErr error)).

(** [useState(readValue)]: the first render runs the initialiser and fills
    the instance's cell, later renders return the cell. *)
Definition useState (inst : nat) (init : M jsval) : M jsval :=
  fun w =>
    match cells w !! inst with
    | Some v => (Normal v, w)
    | None => (let* v := init in setStoredValue inst v ;;; ret v) w
    end.

(** One render of [useLocalStorage(key, initialValue, options)] by the
    component instance [inst]: the scope its closures capture, whose
    [sc_storedValue] is the first component of the returned pair; the
    second is the stable wrapper around [setValue] of that scope. *)
Definition useLocalStorage (inst : nat) (p : Props) : M Scope :=
  let* storedValue := useState inst (readValue p) in
  ret {| sc_inst := inst; sc_props := p; sc_storedValue := storedValue |}.

End LocalStorage.

(** ** A reference [JSON] for the modelled values

    [JSON.stringify] and [JSON.parse] on the values above, enough to run the
    hook on concrete storage contents.  Texts whose numbers carry a fraction
    or an exponent, and [\u] escapes, are outside this fragment and are
    rejected. *)

Module JsonRef.

#[local] Open Scope nat_scope.

Definition SyntaxError : js_error := JsError "SyntaxError" "Unexpected token in JSON".

Definition backslash : ascii := ascii_of_nat 92.
Definition dquote : ascii := ascii_of_nat 34.

Definition is_ws (c : ascii) : bool :=
  let n := nat_of_ascii c in
  (n =? 32) || (n =? 9) || (n =? 10) || (n =? 13).

Definition digit_of (c : ascii) : option Z :=
  let n := nat_of_ascii c in
  if (48 <=? n) && (n <=? 57) then Some (Z.of_nat (n - 48)) else None.

Fixpoint skip_ws (s : string) : string :=
  match s with
  | String c r => if is_ws c then skip_ws r else s
  | EmptyString => s
  end.

Definition hex_digit (n : nat) : ascii :=
  if n <? 10 then ascii_of_nat (48 + n) else ascii_of_nat (87 + n).

Definition hex_value (c : ascii) : option nat :=
  let n := nat_of_ascii c in
  if (48 <=? n) && (n <=? 57) then Some (n - 48)
  else if (97 <=? n) && (n <=? 102) then Some (n - 87)
  else if (65 <=? n) && (n <=? 70) then Some (n - 55)
  else None.

(** Writing: a string between double quotes, its quotes, backslashes and
    control characters escaped. *)
Fixpoint escape (s : string) : string :=
  match s with
  | EmptyString => EmptyString
  | String c r =>
      let n := nat_of_ascii c in
      if n =? 34 then String backslash (String dquote (escape r))
      else if n =? 92 then String backslash (String backslash (escape r))
      else if n =? 8 then String backslash (String "b" (escape r))
      else if n =? 9 then String backslash (String "t" (escape r))
      else if n =? 10 then String backslash (String "n" (escape r))
      else if n =? 12 then String backslash (String "f" (escape r))
      else if n =? 13 then String backslash (String "r" (escape r))
      else if n <? 32 then
        String backslash
          (String "u" (String "0" (String "0"
             (String (hex_digit (n / 16)) (String (hex_digit (n mod 16)) (escape r))))))
      else String c (escape r)
  end.

Definition quoted (s : string) : string :=
  String dquote (escape s ++ String dquote EmptyString).

Fixpoint join (sep : string) (l : list string) : string :=
  match l with
  | [] => EmptyString
  | [x] => x
  | x :: rest => x ++ sep ++ join sep rest
  end.

(** [JSON.stringify(v)]: [None] is the built-in's [undefined]. *)
Fixpoint stringify (v : jsval) : option string :=
  match v with
  | VUndefined => None
  | VNull => Some "null"
  | VBool true => Some "true"
  | VBool false => Some "false"
  | VNum n => Some (pretty n)
  | VStr s => Some (quoted s)
  | VArr xs =>
      Some ("[" ++ join ","
              ((fix elems (l : list jsval) : list string :=
                  match l with
                  | [] => []
                  | x :: l' => stringified (match stringify x with
                                            | Some s => Some s
                                            | None => Some "null"
                                            end) :: elems l'
                  end) xs) ++ "]")
  | VObj fs =>
      Some ("{" ++ join ","
              ((fix members (l : list (string * jsval)) : list string :=
                  match l with
                  | [] => []
                  | (k, x) :: l' =>
                      match stringify x with
                      | Some s => (quoted k ++ ":" ++ s) :: members l'
                      | None => members l'
                      end
                  end) fs) ++ "}")
  end.

(** Reading. *)
Fixpoint expect (lit : string) (s : string) : option string :=
  match lit, s with
  | EmptyString, _ => Some s
  | String a lit', String b s' => if Ascii.eqb a b then expect lit' s' else None
  | String _ _, EmptyString => None
  end.

Fixpoint digits (acc : Z) (s : string) : Z * string :=
  match s with
  | String c r =>
      match digit_of c with
      | Some d => digits (acc * 10 + d) r
      | None => (acc, s)
      end
  | EmptyString => (acc, s)
  end.

(** An integer literal without sign: no leading zero, no fraction, no
    exponent. *)
Definition natural (s : string) : option (Z * string) :=
  match s with
  | String c r =>
      match digit_of c with
      | Some d =>
          let '(n, rest) := digits d r in
          let leading_zero := (d =? 0)%Z && negb (String.length r =? String.length rest)%nat in
          let continues := match rest with
                           | String c' _ => Ascii.eqb c' "." || Ascii.eqb c' "e" || Ascii.eqb c' "E"
                           | EmptyString => false
                           end in
          if leading_zero || continues then None else Some (n, rest)
      | None => None
      end
  | EmptyString => None
  end.

(** The character a [\uXXXX] escape denotes, when it is below 256. *)
Definition unicode_escape (s : string) : option (ascii * string) :=
  match s with
  | String a (String b (String c (String d rest))) =>
      match hex_value a, hex_value b, hex_value c, hex_value d with
      | Some 0, Some 0, Some h, Some l => Some (ascii_of_nat (16 * h + l), rest)
      | _, _, _, _ => None
      end
  | _ => None
  end.

(** One escape sequence after its backslash. *)
Definition escaped (s : string) : option (ascii * string) :=
  match s with
  | String e r =>
      let m := nat_of_ascii e in
      if (m =? 34) || (m =? 92) || (m =? 47) then Some (e, r)
      else if m =? 110 then Some (ascii_of_nat 10, r)
      else if m =? 116 then Some (ascii_of_nat 9, r)
      else if m =? 114 then Some (ascii_of_nat 13, r)
      else if m =? 98 then Some (ascii_of_nat 8, r)
      else if m =? 102 then Some (ascii_of_nat 12, r)
      else if m =? 117 then unicode_escape r
      else None
  | EmptyString => None
  end.

(** The characters of a string literal after its opening quote.  The fuel
    bounds the characters read. *)
Fixpoint chars (fuel : nat) (s : string) : option (string * string) :=
  match fuel with
  | O => None
  | S fuel' =>
      match s with
      | EmptyString => None
      | String c r =>
          let n := nat_of_ascii c in
          if n =? 34 then Some (EmptyString, r)
          else if n <? 32 then None
          else if n =? 92 then
            '(u, r') ← escaped r;
            '(t, rest) ← chars fuel' r';
            Some (String u t, rest)
          else
            '(t, rest) ← chars fuel' r;
            Some (String c t, rest)
      end
  end.

(** A repeated property name keeps its place and takes the later value. *)
Fixpoint set_field (k : string) (v : jsval) (fs : list (string * jsval)) : list (string * jsval) :=
  match fs with
  | [] => [(k, v)]
  | (k', v') :: fs' =>
      if bool_decide (k' = k) then (k', v) :: fs' else (k', v') :: set_field k v fs'
  end.

Fixpoint parse_value (fuel : nat) (s : string) : option (jsval * string) :=
  match fuel with
  | O => None
  | S fuel' =>
      match skip_ws s with
      | EmptyString => None
      | String c r as s' =>
          let n := nat_of_ascii c in
          if n =? 110 then r' ← expect "ull" r; Some (VNull, r')
          else if n =? 116 then r' ← expect "rue" r; Some (VBool true, r')
          else if n =? 102 then r' ← expect "alse" r; Some (VBool false, r')
          else if n =? 34 then '(t, r') ← chars (String.length r) r; Some (VStr t, r')
          else if n =? 45 then '(z, r') ← natural r; Some (VNum (- z), r')
          else if n =? 91 then
            match skip_ws r with
            | String c' r' =>
                if nat_of_ascii c' =? 93 then Some (VArr [], r')
                else '(xs, r'') ← parse_elements fuel' r; Some (VArr xs, r'')
            | EmptyString => None
            end
          else if n =? 123 then
            match skip_ws r with
            | String c' r' =>
                if nat_of_ascii c' =? 125 then Some (VObj [], r')
                else '(fs, r'') ← parse_members fuel' [] r; Some (VObj fs, r'')
            | EmptyString => None
            end
          else '(z, r') ← natural s'; Some (VNum z, r')
      end
  end
with parse_elements (fuel : nat) (s : string) : option (list jsval * string) :=
  match fuel with
  | O => None
  | S fuel' =>
      '(x, r) ← parse_value fuel' s;
      match skip_ws r with
      | String c r' =>
          if nat_of_ascii c =? 44 then
            '(xs, r'') ← parse_elements fuel' r'; Some (x :: xs, r'')
          else if nat_of_ascii c =? 93 then Some ([x], r')
          else None
      | EmptyString => None
      end
  end
with parse_members (fuel : nat) (acc : list (string * jsval)) (s : string)
    : option (list (string * jsval) * string) :=
  match fuel with
  | O => None
  | S fuel' =>
      match skip_ws s with
      | String q r =>
          if nat_of_ascii q =? 34 then
            '(k, r1) ← chars (String.length r) r;
            match skip_ws r1 with
            | String c r2 =>
                if nat_of_ascii c =? 58 then
                  '(x, r3) ← parse_value fuel' r2;
                  let acc' := set_field k x acc in
                  match skip_ws r3 with
                  | String c' r4 =>
                      if nat_of_ascii c' =? 44 then parse_members fuel' acc' r4
                      else if nat_of_ascii c' =? 125 then Some (acc', r4)
                      else None
                  | EmptyString => None
                  end
                else None
            | EmptyString => None
            end
          else None
      | EmptyString => None
      end
  end.

(** [JSON.parse(text)] *)
Definition parse (text : string) : Completion jsval :=
  match parse_value (2 * String.length text + 2) text with
  | Some (v, rest) =>
      match skip_ws rest with
      | EmptyString => Normal v
      | String _ _ => Throw SyntaxError
      end
  | None => Throw SyntaxError
  end.

Definition builtins : JSONBuiltins :=
  {| JSON_parse := parse;
     JSON_stringify := fun v => Normal (stringify v) |}.

End JsonRef.

(** ** The hook in a component's life *)

Section Lifecycle.
Context `{JSONBuiltins}.

(** The setter the hook returns: the stable wrapper of [useEventCallback]
    around the [setValue] closures, [closures n] being the scope captured
    by the function object of render [n]. *)
Definition setter (closures : nat -> Scope) (c : EventCallback.Cells nat)
    (value : SetStateAction) : M unit :=
  EventCallback.call_wrapper (fun n => setValue (closures n)) (@raise unit) c value.

(** Modelled from the spec: what the two [useEventListener] calls leave on
    the window once their effects have run (use-event-listener.ts is not
    among the sources): one listener per event name for the instance, in
    place when already attached, carrying the latest handler. *)
Definition attach (inst : nat) (p : Props) (ls : list Listener) : list Listener :=
  if existsb (fun l => Nat.eqb (l_inst l) inst) ls
  then map (fun l => if Nat.eqb (l_inst l) inst
                     then {| l_type := l_type l; l_inst := inst; l_props := p |}
                     else l) ls
  else ls ++ [ {| l_type := "storage"; l_inst := inst; l_props := p |};
               {| l_type := "local-storage"; l_inst := inst; l_props := p |} ].

Definition attach_listeners (inst : nat) (p : Props) : M unit :=
  fun w =>
    match window w with
    | None => (Normal tt, w)
    | Some win =>
        (Normal tt,
         with_window {| localStorage := localStorage win;
                        listeners := attach inst p (listeners win);
                        dispatched := dispatched win |} w)
    end.

(** The passive effects of a render, in hook order: on the first render
    [setStoredValue(readValue())], then the listeners. *)
Definition commit (first : bool) (sc : Scope) : M unit :=
  (if first
   then let* v := readValue (sc_props sc) in setStoredValue (sc_inst sc) v
   else ret tt) ;;;
  attach_listeners (sc_inst sc) (sc_props sc).

(** A render of the hook followed by its effects. *)
Definition render_and_commit (first : bool) (inst : nat) (p : Props) : M Scope :=
  let* sc := useLocalStorage inst p in
  commit first sc ;;;
  ret sc.

(** A value is JSON-serializable when [JSON.stringify] yields a text from
    which [JSON.parse] reads a deep-equal value back. *)
Definition JSON_serializable (v : jsval) : bool :=
  match JSON_stringify v with
  | Normal (Some s) =>
      match JSON_parse s with
      | Normal v' => deep_equal v' v
      | Throw _ => false
      end
  | _ => false
  end.

(** Two facts of the built-in parser the hook relies on: neither the empty
    text nor the text [undefined] is JSON. *)
Class JSONLaws : Prop := {
  JSON_parse_empty : is_throw (JSON_parse EmptyString) = true;
  JSON_parse_undefined : is_throw (JSON_parse "undefined") = true
}.

(** The write path in the words of the specification: the new value of a
    setter input, given the previous stored value ... *)
Definition claimed_new_value (previous : jsval) (input : SetStateAction) : Completion jsval :=
  match input with
  | Updater f => f previous
  | Literal v => Normal v
  end.

(** ... and its serialization: pass-through in raw mode, the custom
    serializer if supplied, JSON otherwise. *)
Definition claimed_serialization (o : Options) (v : jsval) : Completion string :=
  if raw o then Normal (ToString v)
  else match serializer o with
       | Some serialize => serialize v
       | None => match JSON_stringify v with
                 | Normal r => Normal (stringified r)
                 | Throw e => Throw e
                 end
       end.

End Lifecycle.

(** The storage area a world exposes: [None] without a window, [Some None]
    when reading [window.localStorage] throws. *)
Definition storage_of (w : World) : option (option Storage) :=
  localStorage <$> window w.

(** Whether the area accepts [s] under [k]. *)
Definition write_fits (st : Storage) (k s : string) : bool :=
  within_quota st (<[k := s]> (items st)).

(** No instance is attached twice for one event name. *)
Definition listeners_wf (ls : list Listener) : Prop :=
  NoDup ((fun l => (l_type l, l_inst l)) <$> ls).

(** Function objects named by numbers, for exercising the stable-callback
    hook: function [f] adds [f] to its argument. *)
Definition add_fn (f : nat) (x : nat) : Completion nat := Normal (f + x).

(** A storage area without quota, a window around it, and a browser
    document with the given storage entries and listeners, an empty console
    and no mounted state. *)
Definition area (m : gmap string string) : Storage :=
  {| items := m; quota := None |}.

Definition document (m : gmap string string) (ls : list Listener) : Window :=
  {| localStorage := Some (area m); listeners := ls; dispatched := [] |}.

Definition browser (m : gmap string string) (ls : list Listener) : World :=
  {| window := Some (document m ls); console := []; cells := ∅ |}.

(** A world without a window (server-side rendering). *)
Definition server : World :=
  {| window := None; console := []; cells := ∅ |}.

(** ** Sample inputs *)

Definition sample_props : Props :=
  {| key := "k"; initialValue := VNum 7; options := default_options |}.

Definition raw_props : Props :=
  {| key := "k"; initialValue := VStr "d";
     options := {| raw := true; serializer := None; deserializer := None |} |}.

(** A custom deserializer that rejects every input. *)
Definition strict_props : Props :=
  {| key := "k"; initialValue := VNum 7;
     options := {| raw := false; serializer := None;
                   deserializer := Some (fun _ => Throw (JsError "Error" "rejected")) |} |}.

Definition other_props : Props :=
  {| key := "j"; initialValue := VNull; options := default_options |}.

Definition sample_scope : Scope :=
  {| sc_inst := 0; sc_props := sample_props; sc_storedValue := VNum 7 |}.

Definition local_listener (inst : nat) (p : Props) : Listener :=
  {| l_type := "local-storage"; l_inst := inst; l_props := p |}.

(** An updater: add one to a number. *)
Definition increment (v : jsval) : Completion jsval :=
  match v with
  | VNum n => Normal (VNum (n + 1))
  | _ => Throw (JsError "TypeError" "not a number")
  end.

(** A document in which instance 0 is mounted with state [v]. *)
Definition mounted (m : gmap string string) (ls : list Listener) (v : jsval) : World :=
  {| window := window (browser m ls); console := []; cells := {[ 0 := v ]} |}.

(** ** Observations on a world, and the outcome of a write *)

(** What [localStorage.getItem(k)] returns in a world; [None] also where
    there is no window or no readable storage. *)
Definition stored (k : string) (w : World) : option string :=
  match window w with
  | Some win =>
      match localStorage win with
      | Some st => items st !! k
      | None => None
      end
  | None => None
  end.

Section WriteOutcome.
Context `{JSONBuiltins}.

(** The steps of the write path that can throw, in the order [setValue]
    takes them inside its [try]: the updater, the access to
    [window.localStorage], the serialization, and the quota check of
    [setItem].  The result is the new value with the text to store, or the
    first exception. *)
Definition write_outcome (o : Options) (previous : jsval) (input : SetStateAction)
    (k : string) (win : Window) : Completion (jsval * string) :=
  match claimed_new_value previous input with
  | Throw e => Throw e
  | Normal newValue =>
      match localStorage win with
      | None => Throw SecurityError
      | Some st =>
          match claimed_serialization o newValue with
          | Throw e => Throw e
          | Normal s =>
              if write_fits st k s then Normal (newValue, s)
              else Throw QuotaExceededError
          end
      end
  end.

End WriteOutcome.

(** The functions supplied to the renders of a component's life. *)
Fixpoint supplied_fns {F : Type} (fn0 : F) (tr : list (EventCallback.Step F)) : list F :=
  match tr with
  | [] => [fn0]
  | EventCallback.Render fn :: tr' => fn0 :: supplied_fns fn tr'
  | EventCallback.RunEffects _ :: tr' => supplied_fns fn0 tr'
  end.

(** ** The earlier revision of use-local-storage.ts

    The hook before it took options: JSON only, no diagnostics, and no
    window test in the setter. *)

Module Revision1.

Section Hook.
Context `{JSONBuiltins}.

Definition parseJSON (value : option string) : M jsval :=
  try_catch
    (if bool_decide (value = Some "undefined")
     then ret VUndefined
     else lift (JSON_parse (or_empty value)))
    (fun _ => ret VUndefined).

Definition readValue (key : string) (initialValue : jsval) : M jsval :=
  let* no_window := typeof_window_undefined in
  if no_window then ret initialValue
  else
    try_catch
      (let* st := window_localStorage in
       let* item := getItem st key in
       if truthy item then parseJSON item else ret initialValue)
      (fun _ => ret initialValue).

Definition handleStorageChange (inst : nat) (key : string) (initialValue : jsval)
    (event : Event) : M unit :=
  if truthy (event_key event) && negb (bool_decide (event_key event = Some key))
  then ret tt
  else
    let* v := readValue key initialValue in
    setStoredValue inst v.

(** The listeners of this revision's instances close over a key and a
    default only; the options recorded with a listener play no part. *)
Fixpoint run_listeners (ls : list Listener) (event : Event) (w : World) : World :=
  match ls with
  | [] => w
  | l :: ls' =>
      let w' :=
        if bool_decide (l_type l = event_type event)
        then snd (handleStorageChange (l_inst l) (key (l_props l))
                    (initialValue (l_props l)) event w)
        else w in
      run_listeners ls' event w'
  end.

Definition window_dispatchEvent (event : Event) : M bool :=
  fun w =>
    match window w with
    | None => (Throw ReferenceError, w)
    | Some win =>
        let win' := {| localStorage := localStorage win;
                       listeners := listeners win;
                       dispatched := dispatched win ++ [event] |} in
        (Normal true, run_listeners (listeners win) event (with_window win' w))
    end.

Definition setValue (inst : nat) (key : string) (storedValue : jsval)
    (value : SetStateAction) : M unit :=
  try_catch
    (let* newValue :=
       match value with
       | Updater f => lift (f storedValue)
       | Literal v => ret v
       end in
     window_localStorage ;;;
     (let* s := lift (JSON_stringify newValue) in
      setItem key (stringified s)) ;;;
     setStoredValue inst newValue ;;;
     window_dispatchEvent (PlainEvent "local-storage") ;;;
     ret tt)
    (fun _ => ret tt).

End Hook.

End Revision1.

(** ** More sample inputs *)

(** A browser whose storage refuses access, and one whose storage may hold
    at most [q] characters. *)
Definition denied_document : Window :=
  {| localStorage := None; listeners := []; dispatched := [] |}.

Definition denied_browser : World :=
  {| window := Some denied_document; console := []; cells := ∅ |}.

Definition small_area (m : gmap string string) (q : nat) : Storage :=
  {| items := m; quota := Some q |}.

Definition small_document (m : gmap string string) (q : nat) : Window :=
  {| localStorage := Some (small_area m q); listeners := []; dispatched := [] |}.

Definition small_browser (m : gmap string string) (q : nat) : World :=
  {| window := Some (small_document m q); console := []; cells := ∅ |}.

(** A custom codec for booleans: [true] is stored as [yes], [false] as the
    empty string. *)
Definition flag_serializer (v : jsval) : Completion string :=
  match v with
  | VBool true => Normal "yes"
  | VBool false => Normal EmptyString
  | _ => Throw (JsError "TypeError" "not a flag")
  end.

Definition flag_deserializer (s : string) : Completion jsval :=
  if bool_decide (s = "yes") then Normal (VBool true)
  else Throw (JsError "TypeError" "not a flag").

Definition flag_props : Props :=
  {| key := "k"; initialValue := VBool true;
     options := {| raw := false;
                   serializer := Some flag_serializer;
                   deserializer := Some flag_deserializer |} |}.

Definition flag_scope : Scope :=
  {| sc_inst := 0; sc_props := flag_props; sc_storedValue := VBool true |}.

Definition raw_scope : Scope :=
  {| sc_inst := 0; sc_props := raw_props; sc_storedValue := VStr "d" |}.

(** An updater that throws. *)
Definition failing_updater (v : jsval) : Completion jsval :=
  Throw (JsError "Error" "updater failed").

(** * Properties *)

(** ** The stable-callback hook *)

Section EventCallbackFacts.
Import EventCallback.
Context {F Args B : Type} `{EqDecision F}.
Variable call : F -> Args -> B.
Variable throw : js_error -> B.

Lemma exec_cons (hw : bool) (s : Step F) (tr : list (Step F)) (c : Cells F) :
  exec hw (s :: tr) c =
    (match fst (step hw s c) with
     | Some w => w :: fst (exec hw tr (snd (step hw s c)))
     | None => fst (exec hw tr (snd (step hw s c)))
     end,
     snd (exec hw tr (snd (step hw s c)))).
Proof.
  simpl. destruct (step hw s c) as [ow c1]. simpl.
  destruct (exec hw tr c1) as [ws c2]. reflexivity.
Qed.

(** Until an effect of the hook's kind runs, the ref keeps the function
    [useRef] was initialised with. *)
Lemma exec_keeps_thrower (hw : bool) (tr : list (Step F)) :
  forall c : Cells F,
    ref_current c = InitialThrower ->
    (forall k f, pending c = Some (k, f) -> k = useIsomorphicLayoutEffect hw) ->
    first_effect_ran hw tr = false ->
    ref_current (snd (exec hw tr c)) = InitialThrower.
Proof.
  induction tr as [|s tr IH]; intros c Hr Hp Hran; [exact Hr|].
  rewrite exec_cons. cbn [snd].
  unfold first_effect_ran in Hran. cbn [existsb] in Hran.
  apply orb_false_iff in Hran as [Hs Hrest].
  apply IH; [| |exact Hrest]; destruct s as [fn|k]; cbn.
  - exact Hr.
  - unfold run_effects. destruct (pending c) as [[k' f]|] eqn:E; [|exact Hr].
    destruct (decide (k' = k)) as [->|]; [|exact Hr].
    apply bool_decide_eq_false in Hs. specialize (Hp _ _ eq_refl). contradiction.
  - intros k f. destruct (decide (fn = effect_deps c)); [apply Hp|].
    congruence.
  - intros k0 f. unfold run_effects.
    destruct (pending c) as [[k' f']|] eqn:E; [|rewrite E; discriminate].
    destruct (decide (k' = k)); cbn; [discriminate|].
    rewrite E. apply Hp.
Qed.

(** Running effects leaves the memoised wrapper and the dependencies
    alone ... *)
Lemma run_effects_fields (k : EffectKind) (c : Cells F) :
  memo_fn (run_effects k c) = memo_fn c /\
  memo_deps (run_effects k c) = memo_deps c /\
  ref_obj (run_effects k c) = ref_obj c /\
  effect_deps (run_effects k c) = effect_deps c.
Proof.
  unfold run_effects. destruct (pending c) as [[k' f]|]; [|auto].
  destruct (decide (k' = k)); auto.
Qed.

(** ... an effect still pending afterwards was pending before ... *)
Lemma run_effects_pending (k k' : EffectKind) (c : Cells F) (f : F) :
  pending (run_effects k c) = Some (k', f) -> pending c = Some (k', f).
Proof.
  unfold run_effects. destruct (pending c) as [[k0 f0]|] eqn:E; [|congruence].
  destruct (decide (k0 = k)); cbn; congruence.
Qed.

(** ... and when none is pending afterwards the ref holds the function of
    the effect that was. *)
Lemma run_effects_settled (k : EffectKind) (c : Cells F) (fn : F) :
  (forall k' f, pending c = Some (k', f) -> f = fn) ->
  (pending c = None -> ref_current c = Supplied fn) ->
  pending (run_effects k c) = None ->
  ref_current (run_effects k c) = Supplied fn.
Proof.
  unfold run_effects. intros Hp Hn.
  destruct (pending c) as [[k' f]|] eqn:E; [|rewrite E; exact Hn].
  destruct (decide (k' = k)); cbn.
  - intros _. f_equal. exact (Hp k' f eq_refl).
  - rewrite E. discriminate.
Qed.

(** The invariant of a component's life: the memoised wrapper is the one
    of the first render, its dependency is the ref object, and the ref
    holds the latest supplied function as soon as no effect is pending. *)
Lemma exec_invariant (hw : bool) (w0 : Wrapper) (tr : list (Step F)) :
  forall (c : Cells F) (fn : F),
    memo_fn c = w0 ->
    memo_deps c = ref_obj c ->
    effect_deps c = fn ->
    (forall k f, pending c = Some (k, f) -> f = fn) ->
    (pending c = None -> ref_current c = Supplied fn) ->
    Forall (eq w0) (fst (exec hw tr c)) /\
    (pending (snd (exec hw tr c)) = None ->
     ref_current (snd (exec hw tr c)) = Supplied (last_supplied fn tr)).
Proof.
  induction tr as [|s tr IH]; intros c fn Hm Hd He Hp Hn.
  - split; [constructor | exact Hn].
  - rewrite exec_cons. destruct s as [g|k].
    + assert (Hk : bool_decide (ref_obj c = memo_deps c) = true)
        by (apply bool_decide_eq_true; congruence).
      specialize (IH (snd (useEventCallback hw (ref_obj c) (Some c) g)) g).
      unfold step, useEventCallback in *. cbn [fst snd last_supplied] in *.
      cbn [memo_fn memo_deps ref_obj effect_deps pending ref_current] in IH.
      rewrite Hk in *.
      destruct IH as [Hws Hfin]; [exact Hm | reflexivity | reflexivity | | | ].
      * intros k f. destruct (decide (g = effect_deps c)) as [Hg|Hg].
        -- intros E. rewrite Hg, He. eapply Hp, E.
        -- congruence.
      * destruct (decide (g = effect_deps c)) as [Hg|Hg]; [|discriminate].
        intros E. rewrite (Hn E), Hg, He. reflexivity.
      * split; [constructor; [symmetry; exact Hm | exact Hws] | exact Hfin].
    + cbn [step fst snd last_supplied].
      destruct (run_effects_fields k c) as (Em & Ed & Er & Ee).
      apply (IH (run_effects k c) fn).
      * rewrite Em. exact Hm.
      * rewrite Ed, Er. exact Hd.
      * rewrite Ee. exact He.
      * intros k' f Hpend. eapply Hp, run_effects_pending, Hpend.
      * apply run_effects_settled; assumption.
Qed.

(** Running a trace in two parts. *)
Lemma exec_app (hw : bool) (t1 t2 : list (Step F)) :
  forall c : Cells F,
    snd (exec hw (t1 ++ t2) c) = snd (exec hw t2 (snd (exec hw t1 c))).
Proof.
  induction t1 as [|s t1 IH]; intros c; [reflexivity|].
  cbn [app]. rewrite !exec_cons. cbn [snd]. apply IH.
Qed.

(** Every effect the hook schedules is of the kind
    [useIsomorphicLayoutEffect] chose. *)
Lemma exec_pending_kind (hw : bool) (tr : list (Step F)) :
  forall c : Cells F,
    (forall k f, pending c = Some (k, f) -> k = useIsomorphicLayoutEffect hw) ->
    forall k f, pending (snd (exec hw tr c)) = Some (k, f) ->
                k = useIsomorphicLayoutEffect hw.
Proof.
  induction tr as [|s tr IH]; intros c Hp; [exact Hp|].
  rewrite exec_cons. cbn [snd]. apply IH. destruct s as [g|k0]; cbn.
  - intros k f. destruct (decide (g = effect_deps c)); [apply Hp | congruence].
  - intros k f Hpend. eapply Hp, run_effects_pending, Hpend.
Qed.

(** Renders, and effects of the other kind, leave the ref as it is. *)
Lemma exec_keeps_ref (hw : bool) (tr : list (Step F)) :
  forall c : Cells F,
    (forall k f, pending c = Some (k, f) -> k = useIsomorphicLayoutEffect hw) ->
    first_effect_ran hw tr = false ->
    ref_current (snd (exec hw tr c)) = ref_current c.
Proof.
  induction tr as [|s tr IH]; intros c Hp Hran; [reflexivity|].
  rewrite exec_cons. cbn [snd].
  unfold first_effect_ran in Hran. cbn [existsb] in Hran.
  apply orb_false_iff in Hran as [Hs Hrest].
  rewrite IH; [| |exact Hrest]; destruct s as [g|k]; cbn.
  - reflexivity.
  - unfold run_effects. destruct (pending c) as [[k' f]|] eqn:E; [|reflexivity].
    destruct (decide (k' = k)) as [->|]; [|reflexivity].
    apply bool_decide_eq_false in Hs. specialize (Hp _ _ eq_refl). contradiction.
  - intros k f. destruct (decide (g = effect_deps c)); [apply Hp | congruence].
  - intros k0 f Hpend. eapply Hp, run_effects_pending, Hpend.
Qed.

End EventCallbackFacts.

Section EventCallbackClaims.
Import EventCallback.
Context {F Args B : Type} `{EqDecision F}.
Variable call : F -> Args -> B.
Variable throw : js_error -> B.

(** C7: before the first timing-safe effect has run, invoking the wrapper
    returned by the hook raises the error [useRef] was initialised with,
    for every supplied function, every argument list and every sequence
    of renders that precedes the effect. *)
Theorem C7_wrapper_throws_before_first_effect
    (hw : bool) (r : nat) (fn : F) (tr : list (Step F)) (args : Args) :
  first_effect_ran hw tr = false ->
  call_wrapper call throw (snd (exec hw tr (snd (mount hw r fn)))) args
  = throw rendering_error.
Proof.
  intros Hran. unfold call_wrapper.
  rewrite (exec_keeps_thrower hw tr); [reflexivity | reflexivity | | exact Hran].
  cbn. congruence.
Qed.

(** C6, with the timing the code has: every render of one component
    instance returns the very wrapper of the first render; whenever no
    effect of the hook is pending (the timing-safe effect scheduled by the
    latest render has run) invoking the wrapper with any arguments calls
    the most recently supplied function with them and returns its result;
    and from such a state on, through any further renders and until the
    hook's effect runs again, the wrapper keeps calling that function, the
    one the previous effect installed, whatever functions those renders
    supply. *)
Theorem C6_wrapper_stable_and_calls_latest_committed
    (hw : bool) (r : nat) (fn0 : F) (tr : list (Step F)) :
  Forall (eq (fst (mount hw r fn0))) (fst (exec hw tr (snd (mount hw r fn0)))) /\
  (pending (snd (exec hw tr (snd (mount hw r fn0)))) = None ->
   forall args : Args,
     call_wrapper call throw (snd (exec hw tr (snd (mount hw r fn0)))) args
     = call (last_supplied fn0 tr) args) /\
  (pending (snd (exec hw tr (snd (mount hw r fn0)))) = None ->
   forall rs : list (Step F),
     first_effect_ran hw rs = false ->
     forall args : Args,
       call_wrapper call throw
         (snd (exec hw (tr ++ rs)%list (snd (mount hw r fn0)))) args
       = call (last_supplied fn0 tr) args).
Proof.
  destruct (exec_invariant hw (fst (mount hw r fn0)) tr (snd (mount hw r fn0)) fn0)
    as [Hws Hfin]; try reflexivity.
  - cbn. congruence.
  - cbn. discriminate.
  - split; [exact Hws|]. split.
    + intros Hnone args.
      unfold call_wrapper. rewrite (Hfin Hnone). reflexivity.
    + intros Hnone rs Hrs args.
      unfold call_wrapper. rewrite exec_app, exec_keeps_ref; [| |exact Hrs].
      * rewrite (Hfin Hnone). reflexivity.
      * apply exec_pending_kind. cbn. congruence.
Qed.

End EventCallbackClaims.

Lemma C7_witness :
  EventCallback.call_wrapper add_fn Throw
    (snd (EventCallback.exec true
            [EventCallback.Render 2; EventCallback.RunEffects EventCallback.Passive]
            (snd (EventCallback.mount true 0 1)))) 5
  = Throw EventCallback.rendering_error.
Proof.
  apply (C7_wrapper_throws_before_first_effect add_fn Throw true 0 1). reflexivity.
Defined.

Lemma C6_witness :
  let tr := [EventCallback.RunEffects EventCallback.Layout;
             EventCallback.Render 2;
             EventCallback.RunEffects EventCallback.Layout] in
  let rs := [EventCallback.Render 3; EventCallback.Render 4] in
  Forall (eq (fst (EventCallback.mount true 0 1)))
         (fst (EventCallback.exec true tr (snd (EventCallback.mount true 0 1)))) /\
  EventCallback.call_wrapper add_fn Throw
    (snd (EventCallback.exec true tr (snd (EventCallback.mount true 0 1)))) 5
  = Normal 7 /\
  EventCallback.call_wrapper add_fn Throw
    (snd (EventCallback.exec true (tr ++ rs)%list (snd (EventCallback.mount true 0 1)))) 5
  = Normal 7.
Proof.
  intros tr rs.
  destruct (C6_wrapper_stable_and_calls_latest_committed add_fn Throw true 0 1 tr)
    as (Hws & Hcall & Hstale).
  split; [exact Hws|]. split.
  - apply (Hcall eq_refl 5).
  - apply (Hstale eq_refl rs eq_refl 5).
Defined.

(** C6 as stated fails between a re-render and its effect: the first effect
    has run, function 2 is the most recently supplied one, and the wrapper
    still calls function 1. *)
Lemma C6_counterexample :
  let tr := [EventCallback.RunEffects EventCallback.Layout; EventCallback.Render 2] in
  EventCallback.first_effect_ran true tr = true /\
  EventCallback.last_supplied 1 tr = 2 /\
  EventCallback.call_wrapper add_fn Throw
    (snd (EventCallback.exec true tr (snd (EventCallback.mount true 0 1)))) 5
  = add_fn 1 5 /\
  add_fn 1 5 <> add_fn (EventCallback.last_supplied 1 tr) 5.
Proof.
  cbn. repeat split; discriminate.
Defined.

(** ** The persisted-state hook *)

Ltac run_monad :=
  unfold bind, try_catch, ret, lift, raise, typeof_window_undefined,
    window_localStorage, getItem, console_warn, setStoredValue in *.

Ltac in_browser Hw Hst := repeat (progress (rewrite ?Hw, ?Hst; cbn)).

Section LocalStorageFacts.
Context `{JSONBuiltins}.

Lemma readValue_no_window (p : Props) (w : World) :
  window w = None -> readValue p w = (Normal (initialValue p), w).
Proof. intros Hw. unfold readValue. run_monad. rewrite Hw. reflexivity. Qed.

(** In a browser whose storage can be read, the read path is a case
    analysis on the mode and the stored item. *)
Lemma readValue_browser (p : Props) (w : World) (win : Window) (st : Storage) :
  window w = Some win ->
  localStorage win = Some st ->
  readValue p w =
    let item := items st !! key p in
    if raw (options p) then (Normal (item_as_value item), w)
    else
      try_catch
        (match deserializer (options p) with
         | Some deserialize =>
             if truthy item then lift (deserialize (or_empty item))
             else ret (initialValue p)
         | None =>
             if truthy item then parseJSON item else ret (initialValue p)
         end)
        (fun error =>
           console_warn ("Unable to get value for key " ++ quote ++ key p ++ quote ++ ":")
                        (LErr error) ;;;
           ret (initialValue p)) w.
Proof.
  intros Hw Hst. unfold readValue. run_monad. in_browser Hw Hst.
  destruct (raw (options p)); reflexivity.
Qed.

Lemma parseJSON_world (value : option string) (w : World) :
  is_throw (fst (parseJSON value w)) = false /\
  window (snd (parseJSON value w)) = window w /\
  cells (snd (parseJSON value w)) = cells w.
Proof.
  unfold parseJSON. run_monad.
  destruct (bool_decide _); [auto|].
  destruct (JSON_parse _); auto.
Qed.

(** The read path never raises and touches nothing but the console. *)
Lemma readValue_world (p : Props) (w : World) :
  is_throw (fst (readValue p w)) = false /\
  window (snd (readValue p w)) = window w /\
  cells (snd (readValue p w)) = cells w.
Proof.
  destruct (window w) as [win|] eqn:Hw.
  2:{ rewrite readValue_no_window by exact Hw. auto. }
  destruct (localStorage win) as [st|] eqn:Hst.
  - rewrite (readValue_browser p w win st Hw Hst). cbn zeta.
    destruct (raw (options p)); [auto|].
    unfold try_catch.
    destruct (deserializer (options p)) as [d|].
    + destruct (truthy _); run_monad; [destruct (d _)|]; auto.
    + destruct (truthy _); [|run_monad; auto].
      pose proof (parseJSON_world (items st !! key p) w) as (Ht & Hwin & Hc).
      destruct (parseJSON (items st !! key p) w) as [[v|e] w']; cbn in *;
        [intuition congruence | discriminate Ht].
  - unfold readValue. run_monad. in_browser Hw Hst. auto.
Qed.

(** What the read path returns is determined by the storage area. *)
Lemma readValue_storage (p : Props) (w w' : World) :
  storage_of w = storage_of w' ->
  fst (readValue p w) = fst (readValue p w').
Proof.
  unfold storage_of. intros Hs.
  destruct (window w) as [win|] eqn:Hw, (window w') as [win'|] eqn:Hw';
    cbn in Hs; try discriminate.
  2:{ rewrite !readValue_no_window by assumption. reflexivity. }
  injection Hs as Hs.
  destruct (localStorage win) as [st|] eqn:Hst; symmetry in Hs.
  - rewrite (readValue_browser p w win st Hw Hst).
    rewrite (readValue_browser p w' win' st Hw' Hs). cbn zeta.
    destruct (raw (options p)); [reflexivity|].
    unfold try_catch.
    destruct (deserializer (options p)) as [d|].
    + destruct (truthy _); run_monad; [destruct (d _)|]; reflexivity.
    + destruct (truthy _); [|reflexivity].
      unfold parseJSON. run_monad.
      destruct (bool_decide _); [reflexivity|].
      destruct (JSON_parse _); reflexivity.
  - unfold readValue. run_monad. in_browser Hw Hst. in_browser Hw' Hs.
    reflexivity.
Qed.

(** *** The change handler *)

Lemma handleStorageChange_skip (inst : nat) (p : Props) (event : Event) (w : World) :
  skips p event = true ->
  handleStorageChange inst p event w = (Normal tt, w).
Proof. unfold handleStorageChange. intros ->. reflexivity. Qed.

Lemma handleStorageChange_reread (inst : nat) (p : Props) (event : Event) (w : World) :
  skips p event = false ->
  handleStorageChange inst p event w =
    (let* v := readValue p in setStoredValue inst v) w.
Proof. unfold handleStorageChange. intros ->. reflexivity. Qed.

Lemma handleStorageChange_window (inst : nat) (p : Props) (event : Event) (w : World) :
  window (snd (handleStorageChange inst p event w)) = window w.
Proof.
  destruct (skips p event) eqn:G.
  - rewrite handleStorageChange_skip by exact G. reflexivity.
  - rewrite handleStorageChange_reread by exact G. run_monad.
    pose proof (readValue_world p w) as (_ & Hwin & _).
    destruct (readValue p w) as [[v|e] w']; exact Hwin.
Qed.

Lemma handleStorageChange_other (inst j : nat) (p : Props) (event : Event) (w : World) :
  j <> inst ->
  cells (snd (handleStorageChange inst p event w)) !! j = cells w !! j.
Proof.
  intros Hj. destruct (skips p event) eqn:G.
  - rewrite handleStorageChange_skip by exact G. reflexivity.
  - rewrite handleStorageChange_reread by exact G. run_monad.
    pose proof (readValue_world p w) as (_ & _ & Hc).
    destruct (readValue p w) as [[v|e] w']; cbn in *; rewrite <- Hc; [|reflexivity].
    apply lookup_insert_ne. congruence.
Qed.

Lemma handleStorageChange_cell (inst : nat) (p : Props) (event : Event) (w : World) (v : jsval) :
  skips p event = false ->
  fst (readValue p w) = Normal v ->
  cells (snd (handleStorageChange inst p event w)) !! inst = Some v.
Proof.
  intros G Hv. rewrite handleStorageChange_reread by exact G. run_monad.
  destruct (readValue p w) as [[v'|e] w']; cbn in *; [|discriminate].
  injection Hv as ->. apply lookup_insert_eq.
Qed.

(** *** Dispatch *)

Lemma run_listeners_window (ls : list Listener) (event : Event) :
  forall w, window (run_listeners ls event w) = window w.
Proof.
  induction ls as [|l ls IH]; intros w; [reflexivity|].
  cbn. rewrite IH. destruct (bool_decide _); [|reflexivity].
  apply handleStorageChange_window.
Qed.

Lemma run_listeners_untouched (i : nat) (ls : list Listener) (event : Event) :
  forall w,
    (forall l, l ∈ ls -> l_type l = event_type event -> l_inst l <> i) ->
    cells (run_listeners ls event w) !! i = cells w !! i.
Proof.
  induction ls as [|l ls IH]; intros w Hno; [reflexivity|].
  cbn. rewrite IH.
  - destruct (bool_decide _) eqn:E; [|reflexivity].
    apply bool_decide_eq_true in E.
    apply handleStorageChange_other. intros ->.
    eapply (Hno l); [apply list_elem_of_here | exact E | reflexivity].
  - intros l' Hl'. apply Hno. apply list_elem_of_further, Hl'.
Qed.

(** After a dispatch, the cell of an attached instance holds what its
    handler read from storage. *)
Lemma run_listeners_cell (l : Listener) (ls : list Listener) (event : Event) :
  forall (w : World) (v : jsval),
    listeners_wf ls ->
    l ∈ ls ->
    l_type l = event_type event ->
    skips (l_props l) event = false ->
    fst (readValue (l_props l) w) = Normal v ->
    cells (run_listeners ls event w) !! l_inst l = Some v.
Proof.
  unfold listeners_wf.
  induction ls as [|l0 ls IH]; intros w v Hwf Hin Hty G Hv.
  - apply elem_of_nil in Hin as [].
  - apply NoDup_cons in Hwf as [Hfresh Hwf].
    apply elem_of_cons in Hin as [<-|Hin]; cbn.
    + rewrite (proj2 (bool_decide_eq_true _) Hty).
      rewrite run_listeners_untouched.
      * apply handleStorageChange_cell; assumption.
      * intros l' Hl' Hty' Hi. apply Hfresh.
        apply list_elem_of_fmap. exists l'. split; [|exact Hl'].
        rewrite Hty, Hty', Hi. reflexivity.
    + apply IH; try assumption.
      rewrite <- Hv. destruct (bool_decide _); [|reflexivity].
      apply readValue_storage. unfold storage_of.
      rewrite handleStorageChange_window. reflexivity.
Qed.

End LocalStorageFacts.

Section LocalStorageWrites.
Context `{JSONBuiltins}.

Lemma setValue_no_window (sc : Scope) (input : SetStateAction) (w : World) :
  window w = None -> setValue sc input w = (Normal tt, w).
Proof. intros Hw. unfold setValue. run_monad. rewrite Hw. reflexivity. Qed.

(** The world in which the listeners of a successful write run. *)
Lemma setValue_browser (sc : Scope) (input : SetStateAction) (w : World)
    (win : Window) (st : Storage) (newValue : jsval) (s : string) :
  window w = Some win ->
  localStorage win = Some st ->
  claimed_new_value (sc_storedValue sc) input = Normal newValue ->
  claimed_serialization (options (sc_props sc)) newValue = Normal s ->
  write_fits st (key (sc_props sc)) s = true ->
  setValue sc input w =
    (Normal tt,
     run_listeners (listeners win) (PlainEvent "local-storage")
       {| window := Some {| localStorage :=
                              Some {| items := <[key (sc_props sc) := s]> (items st);
                                      quota := quota st |};
                            listeners := listeners win;
                            dispatched := dispatched win ++ [PlainEvent "local-storage"] |};
          console := console w;
          cells := <[sc_inst sc := newValue]> (cells w) |}).
Proof.
  intros Hw Hst Hnew Hser Hfit.
  unfold claimed_new_value in Hnew. unfold claimed_serialization in Hser.
  unfold write_fits in Hfit.
  unfold setValue, window_dispatchEvent, setItem. run_monad.
  in_browser Hw Hst.
  destruct input as [v|f]; cbn;
    [injection Hnew as -> | rewrite Hnew; cbn];
    (destruct (raw (options (sc_props sc)));
     [ injection Hser as <-
     | destruct (serializer (options (sc_props sc))) as [ser|];
       [ in_browser Hw Hst; rewrite Hser
       | in_browser Hw Hst; destruct (JSON_stringify newValue) as [r|e];
         [injection Hser as <- | discriminate] ] ]);
    in_browser Hw Hst; rewrite Hfit; in_browser Hw Hst; reflexivity.
Qed.

(** Whatever goes wrong while writing is logged, never raised. *)
Lemma setValue_never_raises (sc : Scope) (input : SetStateAction) (w : World) :
  is_throw (fst (setValue sc input w)) = false.
Proof.
  unfold setValue. run_monad.
  destruct (window w); [|reflexivity].
  match goal with
  | |- context [let (c, w') := ?body in _] => destruct body as [[[]|e] w1]
  end; reflexivity.
Qed.

(** Once the effect of the first render has run, the setter the hook
    returns is the [setValue] closure of that render. *)
Lemma setter_after_first_effect (closures : nat -> Scope) (hw : bool) (r n : nat)
    (input : SetStateAction) (w : World) :
  setter closures
    (EventCallback.run_effects (EventCallback.useIsomorphicLayoutEffect hw)
       (snd (EventCallback.mount hw r n))) input w
  = setValue (closures n) input w.
Proof.
  unfold setter, EventCallback.call_wrapper, EventCallback.run_effects. cbn.
  destruct (decide _) as [_|Hne]; [reflexivity | contradiction].
Qed.

End LocalStorageWrites.

Section LocalStorageClaims.
Context `{JSONBuiltins}.

(** C1: with the default JSON mode, when the stored string is present and
    [JSON.parse] rejects it, the read path logs a diagnostic and does not
    raise, and what it returns is [undefined], whatever default the
    caller supplied. *)
Theorem C1_parse_failure_yields_undefined
    (p : Props) (w : World) (win : Window) (st : Storage) (s : string) (e : js_error) :
  window w = Some win ->
  localStorage win = Some st ->
  raw (options p) = false ->
  deserializer (options p) = None ->
  items st !! key p = Some s ->
  s <> EmptyString ->
  s <> "undefined" ->
  JSON_parse s = Throw e ->
  readValue p w =
    (Normal VUndefined,
     {| window := window w;
        console := console w ++ [Warn "Unable to parse value:" (LStr (Some s))];
        cells := cells w |}).
Proof.
  intros Hw Hst Hraw Hde Hitem Hne Hnu Hparse.
  rewrite (readValue_browser p w win st Hw Hst). cbn zeta.
  rewrite Hraw, Hde, Hitem. unfold truthy.
  rewrite bool_decide_eq_false_2 by exact Hne. cbn [negb].
  unfold parseJSON. run_monad.
  rewrite bool_decide_eq_false_2 by congruence.
  cbn [or_empty]. rewrite Hparse. reflexivity.
Qed.

(** The sibling path: when a custom deserializer throws, the error reaches
    the catch block of the read path, which logs it and returns the
    default. *)
Lemma readValue_deserializer_failure
    (p : Props) (w : World) (win : Window) (st : Storage) (s : string)
    (deserialize : string -> Completion jsval) (e : js_error) :
  window w = Some win ->
  localStorage win = Some st ->
  raw (options p) = false ->
  deserializer (options p) = Some deserialize ->
  items st !! key p = Some s ->
  s <> EmptyString ->
  deserialize s = Throw e ->
  readValue p w =
    (Normal (initialValue p),
     {| window := window w;
        console := console w ++
                   [Warn ("Unable to get value for key " ++ quote ++ key p ++ quote ++ ":")
                         (LErr e)];
        cells := cells w |}).
Proof.
  intros Hw Hst Hraw Hde Hitem Hne Hthrow.
  rewrite (readValue_browser p w win st Hw Hst). cbn zeta.
  rewrite Hraw, Hde, Hitem. unfold truthy.
  rewrite bool_decide_eq_false_2 by exact Hne. cbn [negb or_empty].
  run_monad. rewrite Hthrow. reflexivity.
Qed.

(** C3: on the first render with the key absent from a readable storage,
    the value the hook returns is the caller's default in the JSON and
    custom-deserializer modes, and [null] in raw mode. *)
Theorem C3_absent_key_first_render
    (inst : nat) (p : Props) (w : World) (win : Window) (st : Storage) :
  window w = Some win ->
  localStorage win = Some st ->
  items st !! key p = None ->
  cells w !! inst = None ->
  fst (useLocalStorage inst p w) =
    Normal {| sc_inst := inst; sc_props := p;
              sc_storedValue := if raw (options p) then VNull else initialValue p |}.
Proof.
  intros Hw Hst Hitem Hcell.
  unfold useLocalStorage, useState, bind. rewrite Hcell. unfold bind.
  rewrite (readValue_browser p w win st Hw Hst). cbn zeta. rewrite Hitem.
  destruct (raw (options p)); [reflexivity|].
  unfold try_catch. destruct (deserializer (options p)); reflexivity.
Qed.

(** C9: outside raw mode an empty stored string is read exactly as an
    absent key: the read path returns the caller's default and leaves the
    world as it was, whatever the custom deserializer, which is therefore
    not applied. *)
Theorem C9_empty_item_read_as_absent
    (p : Props) (w : World) (win : Window) (st : Storage) :
  window w = Some win ->
  localStorage win = Some st ->
  raw (options p) = false ->
  items st !! key p = Some EmptyString \/ items st !! key p = None ->
  readValue p w = (Normal (initialValue p), w).
Proof.
  intros Hw Hst Hraw Hitem.
  rewrite (readValue_browser p w win st Hw Hst). cbn zeta. rewrite Hraw.
  unfold try_catch.
  destruct Hitem as [-> | ->]; destruct (deserializer (options p)); reflexivity.
Qed.

(** The scope a render returns carries the content of the instance's
    state cell at that render. *)
Lemma useLocalStorage_scope (inst : nat) (p : Props) (w0 w1 : World) (sc : Scope) :
  useLocalStorage inst p w0 = (Normal sc, w1) ->
  sc_inst sc = inst /\ sc_props sc = p /\
  cells w1 !! inst = Some (sc_storedValue sc).
Proof.
  unfold useLocalStorage, useState. run_monad.
  destruct (cells w0 !! inst) as [v0|] eqn:Hcell.
  - intros [= <- <-]. cbn. auto.
  - destruct (readValue p w0) as [[v|e] w']; cbn; [|discriminate].
    intros [= <- <-]. cbn. split; [reflexivity|]. split; [reflexivity|].
    apply lookup_insert_eq.
Qed.


(** Reading a key that holds the JSON text of a serializable value. *)
Lemma readValue_reads_back `{!JSONLaws}
    (p : Props) (w : World) (win : Window) (st : Storage) (V : jsval) (s : string) :
  window w = Some win ->
  localStorage win = Some st ->
  options p = default_options ->
  items st !! key p = Some s ->
  JSON_stringify V = Normal (Some s) ->
  JSON_serializable V = true ->
  exists v', fst (readValue p w) = Normal v' /\ deep_equal v' V = true.
Proof.
  intros Hw Hst Hopt Hitem Hs Hser.
  unfold JSON_serializable in Hser. rewrite Hs in Hser.
  destruct (JSON_parse s) as [v'|e] eqn:Hp; [|discriminate].
  assert (Hne : s <> EmptyString).
  { intros ->. pose proof JSON_parse_empty as E. rewrite Hp in E. discriminate. }
  assert (Hnu : s <> "undefined").
  { intros ->. pose proof JSON_parse_undefined as E. rewrite Hp in E. discriminate. }
  exists v'. split; [|exact Hser].
  rewrite (readValue_browser p w win st Hw Hst). cbn zeta.
  rewrite Hopt, Hitem. cbn [raw deserializer default_options]. unfold truthy.
  rewrite bool_decide_eq_false_2 by exact Hne. cbn [negb].
  unfold parseJSON. run_monad.
  rewrite bool_decide_eq_false_2 by congruence.
  cbn [or_empty]. rewrite Hp. reflexivity.
Qed.


(** The text [undefined], which [setItem] stores when [JSON.stringify]
    returns no text, is read back as [undefined]. *)
Lemma undefined_round_trip
    (sc : Scope) (p' : Props) (w : World) (win : Window) (st : Storage) :
  window w = Some win ->
  localStorage win = Some st ->
  options (sc_props sc) = default_options ->
  options p' = default_options ->
  key p' = key (sc_props sc) ->
  JSON_stringify VUndefined = Normal None ->
  write_fits st (key (sc_props sc)) "undefined" = true ->
  fst (readValue p' (snd (setValue sc (Literal VUndefined) w))) = Normal VUndefined.
Proof.
  intros Hw Hst Hopt Hopt' Hkey Hs Hfit.
  assert (Hcs : claimed_serialization (options (sc_props sc)) VUndefined
                = Normal "undefined").
  { unfold claimed_serialization. rewrite Hopt. cbn. rewrite Hs. reflexivity. }
  rewrite (setValue_browser sc (Literal VUndefined) w win st VUndefined "undefined"
             Hw Hst eq_refl Hcs Hfit).
  cbn [snd].
  erewrite readValue_browser;
    [ | rewrite run_listeners_window; reflexivity | reflexivity ].
  cbn zeta. rewrite Hopt'. cbn [raw deserializer default_options items].
  rewrite Hkey, lookup_insert_eq. reflexivity.
Qed.



End LocalStorageClaims.

(** The listeners [attach] leaves on the window stay well formed. *)
Lemma attach_wf (inst : nat) (p : Props) (ls : list Listener) :
  listeners_wf ls -> listeners_wf (attach inst p ls).
Proof.
  unfold listeners_wf, attach. intros Hwf.
  destruct (existsb _ ls) eqn:E.
  - rewrite <- list_fmap_compose.
    erewrite list_fmap_ext; [exact Hwf|].
    intros i l _. cbn. destruct (Nat.eqb_spec (l_inst l) inst) as [->|]; reflexivity.
  - rewrite fmap_app. apply NoDup_app. split; [exact Hwf|]. split.
    + intros [t i] Hin Hnew.
      apply list_elem_of_fmap in Hin as (l & [= -> ->] & Hl).
      assert (Hi : l_inst l = inst).
      { cbn in Hnew.
        apply elem_of_cons in Hnew as [Hnew|Hnew]; [congruence|].
        apply elem_of_cons in Hnew as [Hnew|Hnew]; [congruence|].
        apply elem_of_nil in Hnew as []. }
      assert (Hex : existsb (fun l => Nat.eqb (l_inst l) inst) ls = true).
      { apply existsb_exists. exists l. split; [apply list_elem_of_In, Hl|].
        apply Nat.eqb_eq, Hi. }
      congruence.
    + cbn. apply (bool_decide_unpack _). reflexivity.
Qed.

(** ** The claims on concrete inputs *)

(** ** Further properties of the read path *)

Section ReadPath.
Context `{JSONBuiltins}.

Lemma parseJSON_console (value : option string) (w : World) :
  console (snd (parseJSON value w)) = console w \/
  exists entry, console (snd (parseJSON value w)) = (console w ++ [entry])%list.
Proof.
  unfold parseJSON. run_monad.
  destruct (bool_decide _); [left; reflexivity|].
  destruct (JSON_parse _); [left; reflexivity|]. right. eexists. reflexivity.
Qed.

(** X1: in every world and every mode the read path returns a value, never
    an exception, leaves the window (storage, listeners, event log) and the
    state cells as they were, and appends at most one entry to the
    console. *)
Theorem X1_readValue_only_reads (p : Props) (w : World) :
  (exists v, fst (readValue p w) = Normal v) /\
  window (snd (readValue p w)) = window w /\
  cells (snd (readValue p w)) = cells w /\
  (console (snd (readValue p w)) = console w \/
   exists entry, console (snd (readValue p w)) = (console w ++ [entry])%list).
Proof.
  pose proof (readValue_world p w) as (Hnt & Hwin & Hc).
  split; [|split; [exact Hwin | split; [exact Hc|]]].
  - destruct (fst (readValue p w)) as [v|e]; [eauto | discriminate].
  - destruct (window w) as [win|] eqn:Hw.
    2:{ rewrite readValue_no_window by exact Hw. left. reflexivity. }
    destruct (localStorage win) as [st|] eqn:Hst.
    + rewrite (readValue_browser p w win st Hw Hst). cbn zeta.
      destruct (raw (options p)); [left; reflexivity|].
      unfold try_catch.
      destruct (deserializer (options p)) as [d|].
      * destruct (truthy _); run_monad; [|left; reflexivity].
        destruct (d _); [left; reflexivity | right; eexists; reflexivity].
      * destruct (truthy _); [|left; reflexivity].
        pose proof (parseJSON_world (items st !! key p) w) as (Ht & _ & _).
        pose proof (parseJSON_console (items st !! key p) w) as Hcon.
        destruct (parseJSON (items st !! key p) w) as [[v|e] w']; cbn in *;
          [exact Hcon | discriminate Ht].
    + unfold readValue. run_monad. in_browser Hw Hst.
      right. eexists. reflexivity.
Qed.

(** X2: when reading [window.localStorage] throws, the read path returns
    the default in every mode, raw mode included, and logs the error
    once. *)
Theorem X2_readValue_storage_denied (p : Props) (w : World) (win : Window) :
  window w = Some win ->
  localStorage win = None ->
  readValue p w =
    (Normal (initialValue p),
     {| window := window w;
        console := console w ++
                   [Warn ("Unable to get value for key " ++ quote ++ key p ++ quote ++ ":")
                         (LErr SecurityError)];
        cells := cells w |}).
Proof.
  intros Hw Hst. unfold readValue. run_monad. in_browser Hw Hst. reflexivity.
Qed.

(** X3: with a custom deserializer and a non-empty stored text, the read
    path returns what the deserializer returns, and the default when the
    deserializer throws. *)
Theorem X3_custom_deserializer_read
    (p : Props) (w : World) (win : Window) (st : Storage) (s : string)
    (deserialize : string -> Completion jsval) :
  window w = Some win ->
  localStorage win = Some st ->
  raw (options p) = false ->
  deserializer (options p) = Some deserialize ->
  items st !! key p = Some s ->
  s <> EmptyString ->
  fst (readValue p w) =
    match deserialize s with
    | Normal v => Normal v
    | Throw _ => Normal (initialValue p)
    end.
Proof.
  intros Hw Hst Hraw Hde Hitem Hne.
  rewrite (readValue_browser p w win st Hw Hst). cbn zeta.
  rewrite Hraw, Hde, Hitem. unfold truthy.
  rewrite bool_decide_eq_false_2 by exact Hne. cbn [negb or_empty].
  run_monad. destruct (deserialize s); reflexivity.
Qed.

End ReadPath.

(** ** Further properties of the write path *)

Section WritePath.
Context `{JSONBuiltins}.

Lemma write_outcome_normal (o : Options) (previous : jsval) (input : SetStateAction)
    (k : string) (win : Window) (newValue : jsval) (s : string) :
  write_outcome o previous input k win = Normal (newValue, s) ->
  exists st,
    localStorage win = Some st /\
    claimed_new_value previous input = Normal newValue /\
    claimed_serialization o newValue = Normal s /\
    write_fits st k s = true.
Proof.
  unfold write_outcome. intros Hout.
  destruct (claimed_new_value previous input) as [nv|] eqn:Hnew; [|discriminate].
  destruct (localStorage win) as [st|] eqn:Hst; [|discriminate].
  destruct (claimed_serialization o nv) as [s'|] eqn:Hser; [|discriminate].
  destruct (write_fits st k s') eqn:Hfit; [|discriminate].
  injection Hout as <- <-. exists st. auto.
Qed.

(** A write that throws at any step ends in the [catch]: one warning, and
    nothing else. *)
Lemma setValue_failure (sc : Scope) (input : SetStateAction) (w : World)
    (win : Window) (e : js_error) :
  window w = Some win ->
  write_outcome (options (sc_props sc)) (sc_storedValue sc) input
    (key (sc_props sc)) win = Throw e ->
  setValue sc input w =
    (Normal tt,
     {| window := window w;
        console := console w ++
                   [Warn ("Unable to store value for key " ++ quote
                          ++ key (sc_props sc) ++ quote ++ ":") (LErr e)];
        cells := cells w |}).
Proof.
  intros Hw Hout. unfold write_outcome, claimed_new_value, claimed_serialization,
    write_fits in Hout.
  unfold setValue, window_dispatchEvent, setItem. run_monad.
  rewrite Hw. cbn.
  destruct input as [v|f]; cbn;
    [|destruct (f (sc_storedValue sc)) as [v|e']; cbn];
    try (injection Hout as <-; rewrite ?Hw; reflexivity);
    (destruct (localStorage win) as [st|] eqn:Hst;
     [| injection Hout as <-;
        destruct (raw (options (sc_props sc)));
        [|destruct (serializer (options (sc_props sc)))];
        in_browser Hw Hst; reflexivity ]);
    (destruct (raw (options (sc_props sc)));
     [ in_browser Hw Hst
     | destruct (serializer (options (sc_props sc))) as [ser|]; in_browser Hw Hst;
       [ destruct (ser v) as [s|e''] | destruct (JSON_stringify v) as [r|e''] ];
       in_browser Hw Hst ]);
    try (injection Hout as <-; rewrite ?Hw; reflexivity);
    (destruct (within_quota st _); [discriminate|];
     injection Hout as <-; rewrite ?Hw; reflexivity).
Qed.

(** X7: a write is all or nothing.  When any step inside the [try] of the
    setter throws (the updater, the access to the storage, the serializer
    or [JSON.stringify], the quota check of [setItem]), the setter returns
    normally, storage, listeners, event log and state cells are what they
    were, and the console has exactly one more entry, carrying that
    error. *)
Theorem X7_failed_write_changes_nothing (sc : Scope) (input : SetStateAction)
    (w : World) (win : Window) (e : js_error) :
  window w = Some win ->
  write_outcome (options (sc_props sc)) (sc_storedValue sc) input
    (key (sc_props sc)) win = Throw e ->
  fst (setValue sc input w) = Normal tt /\
  window (snd (setValue sc input w)) = window w /\
  cells (snd (setValue sc input w)) = cells w /\
  console (snd (setValue sc input w)) =
    (console w ++ [Warn ("Unable to store value for key " ++ quote
                         ++ key (sc_props sc) ++ quote ++ ":")%string (LErr e)])%list.
Proof.
  intros Hw Hout. rewrite (setValue_failure sc input w win e Hw Hout).
  repeat split.
Qed.

(** X8: whatever the input and the world, the setter changes no storage
    entry but the one under its own key. *)
Theorem X8_setValue_touches_only_its_key (sc : Scope) (input : SetStateAction)
    (w : World) (k : string) :
  k <> key (sc_props sc) ->
  stored k (snd (setValue sc input w)) = stored k w.
Proof.
  intros Hk. destruct (window w) as [win|] eqn:Hw.
  2:{ rewrite setValue_no_window by exact Hw. reflexivity. }
  destruct (write_outcome (options (sc_props sc)) (sc_storedValue sc) input
              (key (sc_props sc)) win) as [[newValue s]|e] eqn:Hout.
  - apply write_outcome_normal in Hout as (st & Hst & Hnew & Hser & Hfit).
    rewrite (setValue_browser sc input w win st newValue s Hw Hst Hnew Hser Hfit).
    unfold stored. cbn [snd]. rewrite run_listeners_window, Hw. cbn. rewrite Hst.
    apply lookup_insert_ne. congruence.
  - rewrite (setValue_failure sc input w win e Hw Hout). unfold stored. cbn. reflexivity.
Qed.

(** X9: an updater is applied to the state the render captured, not to
    what an earlier call stored: calling the same setter closure a second
    time with the same updater stores the same text again. *)
Theorem X9_updater_uses_rendered_state (sc : Scope) (f : jsval -> Completion jsval)
    (w : World) (win : Window) (st : Storage) (newValue : jsval) (s : string) :
  window w = Some win ->
  localStorage win = Some st ->
  f (sc_storedValue sc) = Normal newValue ->
  claimed_serialization (options (sc_props sc)) newValue = Normal s ->
  write_fits st (key (sc_props sc)) s = true ->
  let once := snd (setValue sc (Updater f) w) in
  let twice := snd (setValue sc (Updater f) once) in
  stored (key (sc_props sc)) once = Some s /\
  stored (key (sc_props sc)) twice = Some s /\
  forall k, stored k twice = stored k once.
Proof.
  intros Hw Hst Hnew Hser Hfit once twice. subst once twice.
  rewrite (setValue_browser sc (Updater f) w win st newValue s Hw Hst Hnew Hser Hfit).
  cbn [snd].
  match goal with |- context [run_listeners ?ls ?ev ?w0] =>
    set (w1 := run_listeners ls ev w0) end.
  assert (Hw1 : window w1 =
                Some {| localStorage :=
                          Some {| items := <[key (sc_props sc) := s]> (items st);
                                  quota := quota st |};
                        listeners := listeners win;
                        dispatched := dispatched win ++ [PlainEvent "local-storage"] |})
    by (subst w1; rewrite run_listeners_window; reflexivity).
  assert (Hfit1 : write_fits {| items := <[key (sc_props sc) := s]> (items st);
                                quota := quota st |} (key (sc_props sc)) s = true).
  { unfold write_fits in *. cbn [items]. rewrite insert_insert_eq.
    unfold within_quota in *. exact Hfit. }
  rewrite (setValue_browser sc (Updater f) w1 _ _ newValue s Hw1 eq_refl Hnew Hser Hfit1).
  cbn [snd].
  assert (Honce : forall k, stored k w1 = <[key (sc_props sc) := s]> (items st) !! k)
    by (intros k; unfold stored; rewrite Hw1; reflexivity).
  assert (Htwice : forall k w2 ls ev, window w2 = Some {|
             localStorage := Some {| items := <[key (sc_props sc) := s]>
                                                (<[key (sc_props sc) := s]> (items st));
                                     quota := quota st |};
             listeners := ls; dispatched := ev |} ->
           stored k w2 = <[key (sc_props sc) := s]> (items st) !! k).
  { intros k w2 ls ev Hw2. unfold stored. rewrite Hw2. cbn.
    rewrite insert_insert_eq. reflexivity. }
  split; [rewrite Honce; apply lookup_insert_eq|].
  split.
  - erewrite Htwice; [apply lookup_insert_eq|].
    rewrite run_listeners_window. reflexivity.
  - intros k. rewrite Honce. eapply Htwice.
    rewrite run_listeners_window. reflexivity.
Qed.

(** X4: raw mode round trip.  After a successful write in raw mode, a raw
    read of the same key returns the string form of the value written: a
    string comes back as it is, the empty string and the text [undefined]
    included, any other value as its [String(...)] text. *)
Theorem X4_raw_write_then_read (sc : Scope) (p' : Props) (input : SetStateAction)
    (w : World) (win : Window) (st : Storage) (newValue : jsval) :
  window w = Some win ->
  localStorage win = Some st ->
  raw (options (sc_props sc)) = true ->
  raw (options p') = true ->
  key p' = key (sc_props sc) ->
  claimed_new_value (sc_storedValue sc) input = Normal newValue ->
  write_fits st (key (sc_props sc)) (ToString newValue) = true ->
  fst (readValue p' (snd (setValue sc input w))) = Normal (VStr (ToString newValue)) /\
  (forall s, newValue = VStr s -> ToString newValue = s).
Proof.
  intros Hw Hst Hraw Hraw' Hkey Hnew Hfit.
  split; [|intros s ->; reflexivity].
  assert (Hser : claimed_serialization (options (sc_props sc)) newValue
                 = Normal (ToString newValue))
    by (unfold claimed_serialization; rewrite Hraw; reflexivity).
  rewrite (setValue_browser sc input w win st newValue _ Hw Hst Hnew Hser Hfit).
  cbn [snd].
  erewrite readValue_browser;
    [ | rewrite run_listeners_window; reflexivity | reflexivity ].
  cbn zeta. rewrite Hraw'. cbn [items fst]. rewrite Hkey, lookup_insert_eq.
  reflexivity.
Qed.

(** X5: custom codec round trip.  After a successful write through a custom
    serializer that produced a non-empty text, a read of the same key
    through a custom deserializer returns exactly what the deserializer
    makes of that text. *)
Theorem X5_custom_codec_round_trip (sc : Scope) (p' : Props) (input : SetStateAction)
    (w : World) (win : Window) (st : Storage) (newValue v' : jsval) (s : string)
    (serialize : jsval -> Completion string) (deserialize : string -> Completion jsval) :
  window w = Some win ->
  localStorage win = Some st ->
  raw (options (sc_props sc)) = false ->
  serializer (options (sc_props sc)) = Some serialize ->
  raw (options p') = false ->
  deserializer (options p') = Some deserialize ->
  key p' = key (sc_props sc) ->
  claimed_new_value (sc_storedValue sc) input = Normal newValue ->
  serialize newValue = Normal s ->
  s <> EmptyString ->
  deserialize s = Normal v' ->
  write_fits st (key (sc_props sc)) s = true ->
  fst (readValue p' (snd (setValue sc input w))) = Normal v'.
Proof.
  intros Hw Hst Hraw Hser Hraw' Hde Hkey Hnew Hs Hne Hv Hfit.
  assert (Hcs : claimed_serialization (options (sc_props sc)) newValue = Normal s)
    by (unfold claimed_serialization; rewrite Hraw, Hser; exact Hs).
  rewrite (setValue_browser sc input w win st newValue s Hw Hst Hnew Hcs Hfit).
  cbn [snd].
  erewrite readValue_browser;
    [ | rewrite run_listeners_window; reflexivity | reflexivity ].
  cbn zeta. rewrite Hraw', Hde. cbn [items]. rewrite Hkey, lookup_insert_eq.
  unfold truthy, try_catch. rewrite bool_decide_eq_false_2 by exact Hne.
  cbn [negb or_empty]. run_monad. rewrite Hv. reflexivity.
Qed.

(** X6: a value whose serialization is the empty string is lost.  After a
    custom serializer stored the empty text, a read of the same key outside
    raw mode returns the reader's default, whatever its deserializer. *)
Theorem X6_empty_serialization_reads_as_default (sc : Scope) (p' : Props)
    (input : SetStateAction) (w : World) (win : Window) (st : Storage)
    (newValue : jsval) (serialize : jsval -> Completion string) :
  window w = Some win ->
  localStorage win = Some st ->
  raw (options (sc_props sc)) = false ->
  serializer (options (sc_props sc)) = Some serialize ->
  raw (options p') = false ->
  key p' = key (sc_props sc) ->
  claimed_new_value (sc_storedValue sc) input = Normal newValue ->
  serialize newValue = Normal EmptyString ->
  write_fits st (key (sc_props sc)) EmptyString = true ->
  stored (key p') (snd (setValue sc input w)) = Some EmptyString /\
  fst (readValue p' (snd (setValue sc input w))) = Normal (initialValue p').
Proof.
  intros Hw Hst Hraw Hser Hraw' Hkey Hnew Hs Hfit.
  assert (Hcs : claimed_serialization (options (sc_props sc)) newValue
                = Normal EmptyString)
    by (unfold claimed_serialization; rewrite Hraw, Hser; exact Hs).
  rewrite (setValue_browser sc input w win st newValue _ Hw Hst Hnew Hcs Hfit).
  cbn [snd]. split.
  - unfold stored. rewrite run_listeners_window. cbn. rewrite Hkey.
    apply lookup_insert_eq.
  - erewrite readValue_browser;
      [ | rewrite run_listeners_window; reflexivity | reflexivity ].
    cbn zeta. rewrite Hraw'. cbn [items]. rewrite Hkey, lookup_insert_eq.
    unfold try_catch. destruct (deserializer (options p')); reflexivity.
Qed.

(** X18: what [JSON.stringify] has no text for is stored as the text
    [undefined] and read back as [undefined]: with default options, after
    a successful write of a value for which [JSON.stringify] returns
    [undefined], a read of the same key returns [undefined]. *)
Theorem X18_unstringifiable_reads_as_undefined (sc : Scope) (p' : Props)
    (input : SetStateAction) (w : World) (win : Window) (st : Storage)
    (newValue : jsval) :
  window w = Some win ->
  localStorage win = Some st ->
  options (sc_props sc) = default_options ->
  options p' = default_options ->
  key p' = key (sc_props sc) ->
  claimed_new_value (sc_storedValue sc) input = Normal newValue ->
  JSON_stringify newValue = Normal None ->
  write_fits st (key (sc_props sc)) "undefined" = true ->
  stored (key p') (snd (setValue sc input w)) = Some "undefined" /\
  readValue p' (snd (setValue sc input w))
  = (Normal VUndefined, snd (setValue sc input w)).
Proof.
  intros Hw Hst Hopt Hopt' Hkey Hnew Hs Hfit.
  assert (Hcs : claimed_serialization (options (sc_props sc)) newValue
                = Normal "undefined").
  { unfold claimed_serialization. rewrite Hopt. cbn. rewrite Hs. reflexivity. }
  rewrite (setValue_browser sc input w win st newValue "undefined"
             Hw Hst Hnew Hcs Hfit).
  cbn [snd]. split.
  - unfold stored. rewrite run_listeners_window. cbn. rewrite Hkey.
    apply lookup_insert_eq.
  - erewrite readValue_browser;
      [ | rewrite run_listeners_window; reflexivity | reflexivity ].
    cbn zeta. rewrite Hopt'. cbn [raw deserializer default_options items].
    rewrite Hkey, lookup_insert_eq. reflexivity.
Qed.

End WritePath.

(** ** Further properties of the change handler and of mounting *)

Section HandlerAndMount.
Context `{JSONBuiltins}.

Lemma handleStorageChange_cells (inst : nat) (p : Props) (event : Event) (w : World)
    (v : jsval) :
  skips p event = false ->
  fst (readValue p w) = Normal v ->
  cells (snd (handleStorageChange inst p event w)) = <[inst := v]> (cells w).
Proof.
  intros G Hv. rewrite handleStorageChange_reread by exact G. run_monad.
  pose proof (readValue_world p w) as (_ & _ & Hc).
  destruct (readValue p w) as [[v'|e] w']; cbn in *; [|discriminate].
  injection Hv as ->. rewrite Hc. reflexivity.
Qed.

Lemma handleStorageChange_returns (inst : nat) (p : Props) (event : Event) (w : World) :
  fst (handleStorageChange inst p event w) = Normal tt.
Proof.
  destruct (skips p event) eqn:G.
  - rewrite handleStorageChange_skip by exact G. reflexivity.
  - rewrite handleStorageChange_reread by exact G. run_monad.
    pose proof (readValue_world p w) as (Hnt & _ & _).
    destruct (readValue p w) as [[v|e] w']; cbn in *; [reflexivity | discriminate].
Qed.

(** X10: for every event and world the change handler returns normally,
    leaves the window (storage, listeners, event log) as it was, and
    changes no state cell but its own instance's. *)
Theorem X10_handler_touches_only_its_cell (inst : nat) (p : Props) (event : Event)
    (w : World) :
  fst (handleStorageChange inst p event w) = Normal tt /\
  window (snd (handleStorageChange inst p event w)) = window w /\
  (forall j, j <> inst ->
             cells (snd (handleStorageChange inst p event w)) !! j = cells w !! j).
Proof.
  split; [apply handleStorageChange_returns|].
  split; [apply handleStorageChange_window|].
  intros j Hj. apply handleStorageChange_other, Hj.
Qed.

(** X11: re-synchronising is idempotent on the state: handling the same
    event a second time leaves every state cell, and the window, as the
    first handling left them. *)
Theorem X11_handling_twice_is_handling_once (inst : nat) (p : Props) (event : Event)
    (w : World) :
  let once := snd (handleStorageChange inst p event w) in
  let twice := snd (handleStorageChange inst p event once) in
  cells twice = cells once /\ window twice = window once.
Proof.
  intros once twice. subst once twice.
  split; [|apply handleStorageChange_window].
  destruct (skips p event) eqn:G.
  - rewrite !handleStorageChange_skip by exact G. reflexivity.
  - pose proof (readValue_world p w) as (Hnt & _ & _).
    destruct (fst (readValue p w)) as [v|e] eqn:Hv; [|discriminate].
    rewrite (handleStorageChange_cells inst p event _ v G).
    + rewrite (handleStorageChange_cells inst p event w v G Hv).
      apply insert_insert_eq.
    + rewrite <- Hv. apply readValue_storage. unfold storage_of.
      rewrite handleStorageChange_window. reflexivity.
Qed.

Lemma stored_storage_of (k : string) (w w' : World) :
  storage_of w' = storage_of w -> stored k w' = stored k w.
Proof.
  unfold storage_of, stored. intros Hs.
  destruct (window w') as [win'|], (window w) as [win|]; cbn in Hs;
    try discriminate; [|reflexivity].
  injection Hs as ->. reflexivity.
Qed.

(** X12: mounting persists nothing.  A render of the hook followed by its
    effects leaves every storage entry as it was (the default is not
    written for an absent key), and after the first render's effects the
    state cell holds what the read path returns. *)
Theorem X12_mounting_writes_no_storage (first : bool) (inst : nat) (p : Props)
    (w : World) :
  (forall k, stored k (snd (render_and_commit first inst p w)) = stored k w) /\
  (first = true ->
   exists v, fst (readValue p w) = Normal v /\
             cells (snd (render_and_commit first inst p w)) !! inst = Some v).
Proof.
  pose proof (readValue_world p w) as (Hnt & Hwin & Hc).
  destruct (fst (readValue p w)) as [v|e] eqn:Hv; [|discriminate].
  assert (Hrender : exists w1 sv,
             useLocalStorage inst p w
             = (Normal {| sc_inst := inst; sc_props := p; sc_storedValue := sv |}, w1)
             /\ window w1 = window w).
  { unfold useLocalStorage, useState. run_monad.
    destruct (cells w !! inst) as [v0|]; [eauto|].
    destruct (readValue p w) as [[v'|e] w']; cbn in *; [|discriminate].
    eexists _, _. split; [reflexivity | exact Hwin]. }
  destruct Hrender as (w1 & sv & Hrender & Hw1).
  assert (Hv1 : fst (readValue p w1) = Normal v).
  { rewrite <- Hv. apply readValue_storage. unfold storage_of. rewrite Hw1. reflexivity. }
  pose proof (readValue_world p w1) as (_ & Hwin1 & _).
  assert (Hattach : forall w2 : World,
             window w2 = window w ->
             storage_of (snd (attach_listeners inst p w2)) = storage_of w /\
             cells (snd (attach_listeners inst p w2)) = cells w2).
  { intros w2 Hw2. unfold attach_listeners, storage_of. rewrite <- Hw2.
    destruct (window w2) eqn:E; cbn; rewrite ?E; split; reflexivity. }
  unfold render_and_commit, commit, bind. rewrite Hrender.
  cbn [sc_props sc_inst]. unfold bind, setStoredValue, ret.
  destruct first.
  - destruct (readValue p w1) as [[v'|e] w2]; cbn in *; [|discriminate].
    injection Hv1 as ->.
    match goal with |- context [attach_listeners inst p ?w3] =>
      destruct (Hattach w3) as [Hs Hcells]; [cbn; congruence|]
    end.
    destruct (attach_listeners inst p _) as [[[]|e] w4]; cbn in *.
    + split; [intros k; apply stored_storage_of, Hs|].
      intros _. exists v. split; [reflexivity|]. rewrite Hcells.
      apply lookup_insert_eq.
    + split; [intros k; apply stored_storage_of, Hs|].
      intros _. exists v. split; [reflexivity|]. rewrite Hcells.
      apply lookup_insert_eq.
  - cbn. destruct (Hattach w1 Hw1) as [Hs _].
    destruct (attach_listeners inst p w1) as [[[]|e] w4]; cbn in *;
      (split; [intros k; apply stored_storage_of, Hs | discriminate]).
Qed.

End HandlerAndMount.

(** ** Further properties of the stable-callback hook *)

Section EventCallbackMore.
Import EventCallback.
Context {F Args B : Type} `{EqDecision F}.
Variable call : F -> Args -> B.
Variable throw : js_error -> B.

Lemma supplied_fns_first (fn0 : F) (tr : list (Step F)) :
  fn0 ∈ supplied_fns fn0 tr.
Proof.
  revert fn0. induction tr as [|[g|k] tr IH]; intros fn0; cbn.
  - apply list_elem_of_here.
  - apply list_elem_of_here.
  - apply IH.
Qed.

(** Whatever the ref holds after a trace was supplied to some render or
    was there before. *)
Lemma exec_ref_from_supplied (hw : bool) (P : F -> Prop) (tr : list (Step F)) :
  forall c : Cells F,
    (forall x, x ∈ supplied_fns (effect_deps c) tr -> P x) ->
    (forall f, ref_current c = Supplied f -> P f) ->
    (forall k f, pending c = Some (k, f) -> P f) ->
    forall f, ref_current (snd (exec hw tr c)) = Supplied f -> P f.
Proof.
  induction tr as [|s tr IH]; intros c Hsup Href Hpend f; [apply Href|].
  rewrite exec_cons. cbn [snd]. destruct s as [g|k].
  - apply IH; unfold step, useEventCallback; cbn.
    + intros x Hx. apply Hsup. cbn. apply list_elem_of_further, Hx.
    + exact Href.
    + intros k f'. destruct (decide (g = effect_deps c)); [apply Hpend|].
      intros [= _ <-]. apply Hsup. cbn.
      apply list_elem_of_further, supplied_fns_first.
  - destruct (run_effects_fields k c) as (_ & _ & _ & Ee).
    apply IH; cbn [step snd].
    + rewrite Ee. exact Hsup.
    + intros f'. unfold run_effects.
      destruct (pending c) as [[k' f0]|] eqn:E; [|apply Href].
      destruct (decide (k' = k)); [|apply Href].
      cbn. intros [= <-]. eapply Hpend. reflexivity.
    + intros k' f' Hp. eapply Hpend, run_effects_pending, Hp.
Qed.

(** Once an effect of the hook's kind has run, the ref holds a supplied
    function and keeps holding one. *)
Lemma exec_installed (hw : bool) (tr : list (Step F)) :
  forall c : Cells F,
    (ref_current c = InitialThrower ->
     exists f, pending c = Some (useIsomorphicLayoutEffect hw, f)) ->
    ref_current c <> InitialThrower \/ first_effect_ran hw tr = true ->
    ref_current (snd (exec hw tr c)) <> InitialThrower.
Proof.
  induction tr as [|s tr IH]; intros c Hp Hran.
  - destruct Hran as [Hran|Hran]; [exact Hran | discriminate].
  - rewrite exec_cons. cbn [snd]. destruct s as [g|k].
    + apply IH; unfold step, useEventCallback; cbn.
      * intros Hr. destruct (Hp Hr) as [f Hf].
        destruct (decide (g = effect_deps c)); eauto.
      * destruct Hran as [Hran|Hran]; [left; exact Hran | right; exact Hran].
    + apply IH; cbn [step snd]; unfold run_effects.
      * destruct (pending c) as [[k' f]|] eqn:E.
        -- destruct (decide (k' = k)); cbn; [discriminate|].
           rewrite E. intros Hr. destruct (Hp Hr) as [f' Hf']. eauto.
        -- intros Hr. destruct (Hp Hr) as [f' Hf']. discriminate.
      * destruct Hran as [Hran|Hran].
        -- left. destruct (pending c) as [[k' f]|]; [|exact Hran].
           destruct (decide (k' = k)); [discriminate | exact Hran].
        -- unfold first_effect_ran in Hran. cbn [existsb] in Hran.
           apply orb_true_iff in Hran as [Hk|Hrest]; [|right; exact Hrest].
           apply bool_decide_eq_true in Hk. subst k. left.
           destruct (ref_current c) eqn:Hr.
           ++ destruct (Hp eq_refl) as [f Hf]. rewrite Hf.
              destruct (decide _) as [_|Hne]; [discriminate | contradiction].
           ++ destruct (pending c) as [[k' f]|];
                [destruct (decide _); cbn; [discriminate|] |];
                rewrite Hr; discriminate.
Qed.

Lemma exec_effect_deps (hw : bool) (tr : list (Step F)) :
  forall c : Cells F,
    effect_deps (snd (exec hw tr c)) = last_supplied (effect_deps c) tr.
Proof.
  induction tr as [|s tr IH]; intros c; [reflexivity|].
  rewrite exec_cons. cbn [snd]. rewrite IH. destruct s as [g|k]; cbn.
  - reflexivity.
  - destruct (run_effects_fields k c) as (_ & _ & _ & ->). reflexivity.
Qed.

(** X13: once the hook's effect has run for the first time, the wrapper
    never raises the rendering error again, and what it forwards to is
    always one of the functions that were supplied to the hook. *)
Theorem X13_wrapper_forwards_to_a_supplied_function
    (hw : bool) (r : nat) (fn0 : F) (tr : list (Step F)) :
  first_effect_ran hw tr = true ->
  exists f,
    f ∈ supplied_fns fn0 tr /\
    forall args : Args,
      call_wrapper call throw (snd (exec hw tr (snd (mount hw r fn0)))) args
      = call f args.
Proof.
  intros Hran.
  pose proof (exec_installed hw tr (snd (mount hw r fn0))) as Hinst.
  destruct (ref_current (snd (exec hw tr (snd (mount hw r fn0))))) as [|f] eqn:Hr.
  - exfalso. apply Hinst; [intros _; cbn; eauto | right; exact Hran | reflexivity].
  - exists f. split.
    + apply (exec_ref_from_supplied hw (fun x => x ∈ supplied_fns fn0 tr) tr
               (snd (mount hw r fn0))); [ | | | exact Hr].
      * intros x Hx. exact Hx.
      * cbn. discriminate.
      * cbn. intros k f' [= _ <-]. apply supplied_fns_first.
    + intros args. unfold call_wrapper. rewrite Hr. reflexivity.
Qed.

(** X14: supplying the function object that is already installed
    schedules no effect: from a state with no pending effect, a render
    with the latest function again leaves none pending, and the wrapper
    calls that function right away. *)
Theorem X14_same_function_opens_no_stale_window
    (hw : bool) (r : nat) (fn0 : F) (tr : list (Step F)) (n : nat) :
  pending (snd (exec hw tr (snd (mount hw r fn0)))) = None ->
  let again := (tr ++ replicate n (Render (last_supplied fn0 tr)))%list in
  pending (snd (exec hw again (snd (mount hw r fn0)))) = None /\
  forall args : Args,
    call_wrapper call throw (snd (exec hw again (snd (mount hw r fn0)))) args
    = call (last_supplied fn0 tr) args.
Proof.
  intros Hnone again.
  assert (Hexec : forall (t1 t2 : list (Step F)) (c : Cells F),
             snd (exec hw (t1 ++ t2) c) = snd (exec hw t2 (snd (exec hw t1 c)))).
  { induction t1 as [|s t1 IH1]; intros t2 c; [reflexivity|].
    cbn [app]. rewrite !exec_cons. cbn [snd]. apply IH1. }
  assert (Hfin : ref_current (snd (exec hw tr (snd (mount hw r fn0))))
                 = Supplied (last_supplied fn0 tr)).
  { destruct (exec_invariant hw (fst (mount hw r fn0)) tr (snd (mount hw r fn0)) fn0)
      as [_ Hfin]; try reflexivity.
    - cbn. congruence.
    - cbn. discriminate.
    - exact (Hfin Hnone). }
  assert (Hdeps : effect_deps (snd (exec hw tr (snd (mount hw r fn0))))
                  = last_supplied fn0 tr)
    by (rewrite exec_effect_deps; reflexivity).
  subst again. rewrite Hexec.
  set (c := snd (exec hw tr (snd (mount hw r fn0)))) in *.
  set (fn := last_supplied fn0 tr) in *.
  clearbody c fn. clear Hexec.
  assert (Hrep : pending (snd (exec hw (replicate n (Render fn)) c)) = None /\
                 ref_current (snd (exec hw (replicate n (Render fn)) c)) = Supplied fn).
  { revert c Hnone Hfin Hdeps. induction n as [|n IHn]; intros c Hnone Hfin Hdeps.
    - split; assumption.
    - cbn [replicate]. rewrite exec_cons. cbn [snd].
      apply IHn; unfold step, useEventCallback; cbn.
      + rewrite Hdeps. destruct (decide (fn = fn)); [exact Hnone | contradiction].
      + exact Hfin.
      + reflexivity. }
  destruct Hrep as [Hp Hr]. split; [exact Hp|].
  intros args. unfold call_wrapper. rewrite Hr. reflexivity.
Qed.

End EventCallbackMore.

(** ** The earlier revision against the current one *)

Section Revisions.
Context `{JSONBuiltins}.

Lemma Revision1_readValue_eq (p : Props) (w : World) :
  options p = default_options ->
  Revision1.readValue (key p) (initialValue p) w = (fst (readValue p w), w).
Proof.
  intros Hopt. unfold Revision1.readValue, readValue. rewrite Hopt.
  cbn [raw deserializer default_options]. run_monad.
  destruct (window w) as [win|] eqn:Hw; cbn; [|reflexivity].
  destruct (localStorage win) as [st|] eqn:Hst; in_browser Hw Hst; [|reflexivity].
  destruct (truthy (items st !! key p)); [|reflexivity].
  unfold Revision1.parseJSON, parseJSON. run_monad.
  destruct (bool_decide _); [reflexivity|].
  destruct (JSON_parse _); reflexivity.
Qed.

(** X15: with default options the two revisions of the read path return
    the same value in every world, and the earlier one leaves the whole
    world, console included, as it found it: it never logs. *)
Theorem X15_revisions_read_alike (p : Props) (w : World) :
  options p = default_options ->
  fst (Revision1.readValue (key p) (initialValue p) w) = fst (readValue p w) /\
  snd (Revision1.readValue (key p) (initialValue p) w) = w.
Proof.
  intros Hopt. rewrite (Revision1_readValue_eq p w Hopt). split; reflexivity.
Qed.

Lemma Revision1_handler_agrees (inst : nat) (p : Props) (event : Event) (w w1 : World) :
  options p = default_options ->
  window w1 = window w ->
  cells w1 = cells w ->
  let r1 := snd (Revision1.handleStorageChange inst (key p) (initialValue p) event w1) in
  let r := snd (handleStorageChange inst p event w) in
  window r1 = window r /\ cells r1 = cells r /\ console r1 = console w1.
Proof.
  intros Hopt Hwin Hcells r1 r. subst r1 r.
  unfold Revision1.handleStorageChange.
  change (truthy (event_key event)
          && negb (bool_decide (event_key event = Some (key p))))
    with (skips p event).
  destruct (skips p event) eqn:G.
  - rewrite handleStorageChange_skip by exact G. cbn. auto.
  - unfold bind. rewrite (Revision1_readValue_eq p w1 Hopt).
    pose proof (readValue_world p w1) as (Hnt & _ & _).
    assert (Hsame : fst (readValue p w1) = fst (readValue p w)).
    { apply readValue_storage. unfold storage_of. rewrite Hwin. reflexivity. }
    destruct (fst (readValue p w1)) as [v|e] eqn:Hv; [|discriminate].
    rewrite handleStorageChange_window.
    rewrite (handleStorageChange_cells inst p event w v G (eq_sym Hsame)).
    cbn. rewrite Hcells. auto.
Qed.

Lemma Revision1_listeners_agree (ls : list Listener) (event : Event) :
  forall w w1 : World,
    (forall l, l ∈ ls -> options (l_props l) = default_options) ->
    window w1 = window w ->
    cells w1 = cells w ->
    window (Revision1.run_listeners ls event w1) = window (run_listeners ls event w) /\
    cells (Revision1.run_listeners ls event w1) = cells (run_listeners ls event w) /\
    console (Revision1.run_listeners ls event w1) = console w1.
Proof.
  induction ls as [|l ls IH]; intros w w1 Hopts Hwin Hcells; [cbn; auto|].
  cbn [Revision1.run_listeners run_listeners].
  assert (Hl : options (l_props l) = default_options)
    by (apply Hopts, list_elem_of_here).
  assert (Hrest : forall l', l' ∈ ls -> options (l_props l') = default_options)
    by (intros l' Hl'; apply Hopts, list_elem_of_further, Hl').
  destruct (bool_decide (l_type l = event_type event)).
  - destruct (Revision1_handler_agrees (l_inst l) (l_props l) event w w1 Hl Hwin Hcells)
      as (Hw' & Hc' & Hcon).
    destruct (IH _ _ Hrest Hw' Hc') as (A & B0 & C0).
    rewrite C0, Hcon. auto.
  - apply IH; assumption.
Qed.

Lemma Revision1_setValue_no_window (inst : nat) (k : string) (storedValue : jsval)
    (input : SetStateAction) (w : World) :
  window w = None ->
  Revision1.setValue inst k storedValue input w = (Normal tt, w).
Proof.
  intros Hw. unfold Revision1.setValue. run_monad.
  destruct input as [v|f]; cbn; [|destruct (f storedValue); cbn];
    rewrite ?Hw; reflexivity.
Qed.

Lemma Revision1_setValue_browser (inst : nat) (k : string) (storedValue : jsval)
    (input : SetStateAction) (w : World) (win : Window) (st : Storage)
    (newValue : jsval) (s : string) :
  window w = Some win ->
  localStorage win = Some st ->
  claimed_new_value storedValue input = Normal newValue ->
  claimed_serialization default_options newValue = Normal s ->
  write_fits st k s = true ->
  Revision1.setValue inst k storedValue input w =
    (Normal tt,
     Revision1.run_listeners (listeners win) (PlainEvent "local-storage")
       {| window := Some {| localStorage :=
                              Some {| items := <[k := s]> (items st);
                                      quota := quota st |};
                            listeners := listeners win;
                            dispatched := dispatched win ++ [PlainEvent "local-storage"] |};
          console := console w;
          cells := <[inst := newValue]> (cells w) |}).
Proof.
  intros Hw Hst Hnew Hser Hfit.
  unfold claimed_new_value in Hnew. unfold claimed_serialization in Hser.
  cbn [raw serializer default_options] in Hser. unfold write_fits in Hfit.
  unfold Revision1.setValue, Revision1.window_dispatchEvent, setItem. run_monad.
  destruct input as [v|f]; cbn;
    [injection Hnew as -> | rewrite Hnew; cbn];
    in_browser Hw Hst;
    (destruct (JSON_stringify newValue) as [r|e]; [injection Hser as <- | discriminate]);
    in_browser Hw Hst; rewrite Hfit; in_browser Hw Hst; reflexivity.
Qed.

Lemma Revision1_setValue_failure (inst : nat) (k : string) (storedValue : jsval)
    (input : SetStateAction) (w : World) (win : Window) (e : js_error) :
  window w = Some win ->
  write_outcome default_options storedValue input k win = Throw e ->
  Revision1.setValue inst k storedValue input w = (Normal tt, w).
Proof.
  intros Hw Hout. unfold write_outcome, claimed_new_value, claimed_serialization,
    write_fits in Hout. cbn [raw serializer default_options] in Hout.
  unfold Revision1.setValue, Revision1.window_dispatchEvent, setItem. run_monad.
  destruct input as [v|f]; cbn; [|destruct (f storedValue) as [v|e']; cbn];
    try reflexivity;
    (destruct (localStorage win) as [st|] eqn:Hst; in_browser Hw Hst;
     [|reflexivity]);
    (destruct (JSON_stringify v) as [r|e']; in_browser Hw Hst; [|reflexivity]);
    (destruct (within_quota st _); [discriminate | reflexivity]).
Qed.

Lemma Revision1_listeners_silent (ls : list Listener) (event : Event) :
  forall w : World, console (Revision1.run_listeners ls event w) = console w.
Proof.
  induction ls as [|l ls IH]; intros w; [reflexivity|].
  cbn [Revision1.run_listeners]. rewrite IH.
  destruct (bool_decide _); [|reflexivity].
  unfold Revision1.handleStorageChange.
  destruct (_ && _); [reflexivity|]. unfold bind.
  pose proof (Revision1_readValue_eq
                {| key := key (l_props l); initialValue := initialValue (l_props l);
                   options := default_options |} w eq_refl) as E.
  cbn [key initialValue] in E. rewrite E.
  destruct (fst (readValue _ w)); reflexivity.
Qed.

(** X16: the earlier setter has no window test, and still does nothing
    where there is no window: the [ReferenceError] of [window.localStorage]
    ends in its empty [catch].  In every world it returns normally and
    writes nothing to the console, whatever goes wrong. *)
Theorem X16_earlier_setter_is_silent (inst : nat) (k : string) (storedValue : jsval)
    (input : SetStateAction) (w : World) :
  fst (Revision1.setValue inst k storedValue input w) = Normal tt /\
  console (snd (Revision1.setValue inst k storedValue input w)) = console w /\
  (window w = None -> snd (Revision1.setValue inst k storedValue input w) = w).
Proof.
  destruct (window w) as [win|] eqn:Hw.
  2:{ rewrite Revision1_setValue_no_window by exact Hw. auto. }
  destruct (write_outcome default_options storedValue input k win)
    as [[newValue s]|e] eqn:Hout.
  - apply write_outcome_normal in Hout as (st & Hst & Hnew & Hser & Hfit).
    rewrite (Revision1_setValue_browser inst k storedValue input w win st newValue s
               Hw Hst Hnew Hser Hfit).
    cbn [fst snd]. split; [reflexivity|]. split; [|discriminate].
    rewrite Revision1_listeners_silent. reflexivity.
  - rewrite (Revision1_setValue_failure inst k storedValue input w win e Hw Hout).
    split; [reflexivity|]. split; [reflexivity | discriminate].
Qed.

(** X17: with default options throughout, the two revisions of the setter
    leave the same storage, listeners, event log and state cells behind, in
    every world with a window and for every input; they differ in the
    console only. *)
Theorem X17_revisions_write_alike (sc : Scope) (input : SetStateAction)
    (w : World) (win : Window) :
  window w = Some win ->
  options (sc_props sc) = default_options ->
  (forall l, l ∈ listeners win -> options (l_props l) = default_options) ->
  let r1 := snd (Revision1.setValue (sc_inst sc) (key (sc_props sc))
                   (sc_storedValue sc) input w) in
  let r := snd (setValue sc input w) in
  window r1 = window r /\ cells r1 = cells r.
Proof.
  intros Hw Hopt Hopts r1 r. subst r1 r.
  destruct (write_outcome default_options (sc_storedValue sc) input
              (key (sc_props sc)) win) as [[newValue s]|e] eqn:Hout.
  - apply write_outcome_normal in Hout as (st & Hst & Hnew & Hser & Hfit).
    rewrite (Revision1_setValue_browser _ _ _ input w win st newValue s
               Hw Hst Hnew Hser Hfit).
    rewrite <- Hopt in Hser.
    rewrite (setValue_browser sc input w win st newValue s Hw Hst Hnew Hser Hfit).
    cbn [snd].
    match goal with |- context [run_listeners ?ls ?ev ?w0] =>
      destruct (Revision1_listeners_agree ls ev w0 w0 Hopts eq_refl eq_refl)
        as (A & B0 & _) end.
    split; assumption.
  - rewrite (Revision1_setValue_failure _ _ _ input w win e Hw Hout).
    rewrite <- Hopt in Hout.
    rewrite (setValue_failure sc input w win e Hw Hout). cbn. rewrite Hw. auto.
Qed.

End Revisions.

(** ** The setter where there is no window *)

Section SetterWithoutWindow.
Context `{JSONBuiltins}.

(** C4, with the wrapper the hook returns: without a window the read path
    returns the default and leaves the world as it was; the setter the hook
    returns, the stable wrapper, raises the rendering error as long as the
    hook's effect has not run, and once it has run returns without
    raising; either way, and also when the function handed to the wrapper
    is called itself, the whole world, local state included, is left
    untouched. *)
Theorem C4_no_window_reads_default_and_ignores_writes
    (p : Props) (input : SetStateAction) (w : World)
    (closures : nat -> Scope) (r n0 : nat) (tr : list (EventCallback.Step nat)) :
  window w = None ->
  let c := snd (EventCallback.exec false tr (snd (EventCallback.mount false r n0))) in
  readValue p w = (Normal (initialValue p), w) /\
  (forall sc, setValue sc input w = (Normal tt, w)) /\
  (EventCallback.first_effect_ran false tr = true ->
   setter closures c input w = (Normal tt, w)) /\
  (EventCallback.first_effect_ran false tr = false ->
   setter closures c input w = (Throw EventCallback.rendering_error, w)).
Proof.
  intros Hw c. split; [apply readValue_no_window, Hw|].
  split; [intros sc; apply setValue_no_window, Hw|].
  unfold setter, EventCallback.call_wrapper. split; intros Hran.
  - pose proof (exec_installed false tr (snd (EventCallback.mount false r n0))) as Hinst.
    destruct (EventCallback.ref_current c) as [|f] eqn:Hr.
    + exfalso. apply Hinst; [intros _; cbn; eauto | right; exact Hran | exact Hr].
    + cbn. apply setValue_no_window, Hw.
  - subst c. rewrite (exec_keeps_thrower false tr); [reflexivity | reflexivity | | exact Hran].
    cbn. congruence.
Qed.

End SetterWithoutWindow.

#[local] Existing Instance JsonRef.builtins.

#[local] Instance JsonRef_laws : @JSONLaws JsonRef.builtins.
Proof. split; reflexivity. Qed.

(** Two instances mount on the same key, the first one writes, and the
    second one holds the written value; a third one on another key has
    re-read its own. *)
Example write_reaches_the_other_instance :
  let script :=
    let* a := render_and_commit true 1 sample_props in
    render_and_commit true 2 sample_props ;;;
    render_and_commit true 3 other_props ;;;
    setValue a (Literal (VStr "x")) in
  let w := snd (script (browser {[ "j" := "[]" ]} [])) in
  cells w !! 1 = Some (VStr "x") /\
  cells w !! 2 = Some (VStr "x") /\
  cells w !! 3 = Some (VArr []) /\
  console w = [].
Proof. cbn zeta. repeat split; reflexivity. Qed.

(** Another document on the same storage receives the browser's storage
    event for the key and re-reads it. *)
Example storage_event_reaches_another_document :
  let script :=
    render_and_commit true 1 sample_props ;;;
    window_dispatchEvent (StorageEvent (Some "k")) in
  cells (snd (script (browser {[ "k" := JsonRef.quoted "x" ]} []))) !! 1
  = Some (VStr "x").
Proof. reflexivity. Qed.

(** An updater sees the state of the render that created the setter. *)
Example updater_sees_rendered_state :
  let script :=
    let* a := render_and_commit true 1 sample_props in
    setValue a (Updater increment) in
  cells (snd (script (browser {[ "k" := "41" ]} []))) !! 1 = Some (VNum 42).
Proof. reflexivity. Qed.

Lemma C1_witness :
  fst (readValue sample_props (browser {[ "k" := "{" ]} [])) = Normal VUndefined /\
  Normal VUndefined <> Normal (initialValue sample_props).
Proof.
  split; [|discriminate].
  rewrite (C1_parse_failure_yields_undefined sample_props
             (browser {[ "k" := "{" ]} []) (document {[ "k" := "{" ]} [])
             (area {[ "k" := "{" ]}) "{" JsonRef.SyntaxError);
    first [reflexivity | discriminate].
Defined.

Lemma C3_witness :
  fst (useLocalStorage 0 raw_props (browser ∅ [])) =
    Normal {| sc_inst := 0; sc_props := raw_props; sc_storedValue := VNull |} /\
  VNull <> initialValue raw_props.
Proof.
  split; [|discriminate].
  apply (C3_absent_key_first_render 0 raw_props (browser ∅ []) (document ∅ []) (area ∅));
    reflexivity.
Defined.

Lemma C9_witness :
  readValue strict_props (browser {[ "k" := EmptyString ]} [])
  = (Normal (VNum 7), browser {[ "k" := EmptyString ]} []) /\
  readValue strict_props (browser ∅ []) = (Normal (VNum 7), browser ∅ []).
Proof.
  split.
  - apply (C9_empty_item_read_as_absent strict_props
             (browser {[ "k" := EmptyString ]} [])
             (document {[ "k" := EmptyString ]} []) (area {[ "k" := EmptyString ]}));
      first [reflexivity | left; reflexivity].
  - apply (C9_empty_item_read_as_absent strict_props (browser ∅ [])
             (document ∅ []) (area ∅));
      first [reflexivity | right; reflexivity].
Defined.





Lemma listeners_wf_two (p q : Props) :
  listeners_wf [local_listener 1 p; local_listener 2 q].
Proof.
  unfold listeners_wf. cbn. apply (bool_decide_unpack _). reflexivity.
Qed.



(** ** The further properties on concrete inputs *)

Lemma X2_witness :
  fst (readValue raw_props denied_browser) = Normal (VStr "d") /\
  length (console (snd (readValue raw_props denied_browser))) = 1.
Proof.
  rewrite (X2_readValue_storage_denied raw_props denied_browser denied_document);
    [split; reflexivity | reflexivity | reflexivity].
Defined.

Lemma X3_witness :
  fst (readValue flag_props (browser {[ "k" := "yes" ]} [])) = Normal (VBool true) /\
  fst (readValue flag_props (browser {[ "k" := "no" ]} [])) = Normal (VBool true).
Proof.
  split.
  - rewrite (X3_custom_deserializer_read flag_props (browser {[ "k" := "yes" ]} [])
               (document {[ "k" := "yes" ]} []) (area {[ "k" := "yes" ]}) "yes"
               flag_deserializer);
      first [reflexivity | discriminate].
  - rewrite (X3_custom_deserializer_read flag_props (browser {[ "k" := "no" ]} [])
               (document {[ "k" := "no" ]} []) (area {[ "k" := "no" ]}) "no"
               flag_deserializer);
      first [reflexivity | discriminate].
Defined.

Lemma X4_witness :
  fst (readValue raw_props (snd (setValue raw_scope (Literal (VNum 8)) (browser ∅ []))))
  = Normal (VStr "8").
Proof.
  destruct (X4_raw_write_then_read raw_scope raw_props (Literal (VNum 8))
              (browser ∅ []) (document ∅ []) (area ∅) (VNum 8))
    as [Hread _];
    [ reflexivity | reflexivity | reflexivity | reflexivity | reflexivity
    | reflexivity | reflexivity | ].
  exact Hread.
Defined.

Lemma X5_witness :
  fst (readValue flag_props
         (snd (setValue flag_scope (Literal (VBool true)) (browser ∅ []))))
  = Normal (VBool true).
Proof.
  apply (X5_custom_codec_round_trip flag_scope flag_props (Literal (VBool true))
           (browser ∅ []) (document ∅ []) (area ∅) (VBool true) (VBool true) "yes"
           flag_serializer flag_deserializer);
    first [reflexivity | discriminate].
Defined.

(** Writing [false] with a default of [true] reads back [true]. *)
Lemma X6_witness :
  fst (readValue flag_props
         (snd (setValue flag_scope (Literal (VBool false)) (browser ∅ []))))
  = Normal (VBool true).
Proof.
  destruct (X6_empty_serialization_reads_as_default flag_scope flag_props
              (Literal (VBool false)) (browser ∅ []) (document ∅ []) (area ∅)
              (VBool false) flag_serializer)
    as [_ Hread];
    [ reflexivity | reflexivity | reflexivity | reflexivity | reflexivity
    | reflexivity | reflexivity | reflexivity | reflexivity | ].
  exact Hread.
Defined.

(** A storage that may hold one character refuses the write. *)
Lemma X7_witness :
  window (snd (setValue sample_scope (Literal (VStr "x")) (small_browser ∅ 1)))
  = window (small_browser ∅ 1) /\
  cells (snd (setValue sample_scope (Literal (VStr "x")) (small_browser ∅ 1)))
  = cells (small_browser ∅ 1).
Proof.
  destruct (X7_failed_write_changes_nothing sample_scope (Literal (VStr "x"))
              (small_browser ∅ 1) (small_document ∅ 1) QuotaExceededError)
    as (_ & Hwin & Hcells & _);
    [ reflexivity | reflexivity | ].
  split; [exact Hwin | exact Hcells].
Defined.

Lemma X8_witness :
  stored "j" (snd (setValue sample_scope (Literal (VNum 3))
                     (browser {[ "j" := "true" ]} []))) = Some "true".
Proof.
  rewrite (X8_setValue_touches_only_its_key sample_scope (Literal (VNum 3))
             (browser {[ "j" := "true" ]} []) "j");
    [reflexivity | discriminate].
Defined.

(** Two increments of the same closure over state 7 store 8, not 9. *)
Lemma X9_witness :
  stored "k" (snd (setValue sample_scope (Updater increment)
                     (snd (setValue sample_scope (Updater increment) (browser ∅ [])))))
  = Some "8".
Proof.
  destruct (X9_updater_uses_rendered_state sample_scope increment (browser ∅ [])
              (document ∅ []) (area ∅) (VNum 8) "8")
    as (_ & Htwice & _);
    [ reflexivity | reflexivity | reflexivity | reflexivity | reflexivity | ].
  exact Htwice.
Defined.

Lemma X12_witness :
  stored "k" (snd (render_and_commit true 1 sample_props (browser ∅ []))) = None /\
  cells (snd (render_and_commit true 1 sample_props (browser ∅ []))) !! 1
  = Some (VNum 7).
Proof.
  destruct (X12_mounting_writes_no_storage true 1 sample_props (browser ∅ []))
    as [Hstored Hcell].
  split; [exact (Hstored "k")|].
  destruct (Hcell eq_refl) as (v & Hv & Hc).
  change (Normal (VNum 7) = Normal v) in Hv. injection Hv as <-. exact Hc.
Defined.

Lemma X13_witness :
  let tr := [EventCallback.RunEffects EventCallback.Layout; EventCallback.Render 2] in
  exists f,
    f ∈ supplied_fns 1 tr /\
    forall args : nat,
      EventCallback.call_wrapper add_fn Throw
        (snd (EventCallback.exec true tr (snd (EventCallback.mount true 0 1)))) args
      = add_fn f args.
Proof.
  intros tr.
  apply (X13_wrapper_forwards_to_a_supplied_function add_fn Throw true 0 1 tr).
  reflexivity.
Defined.

Lemma X14_witness :
  let tr := [EventCallback.RunEffects EventCallback.Layout;
             EventCallback.Render 1; EventCallback.Render 1] in
  EventCallback.pending
    (snd (EventCallback.exec true tr (snd (EventCallback.mount true 0 1)))) = None /\
  EventCallback.call_wrapper add_fn Throw
    (snd (EventCallback.exec true tr (snd (EventCallback.mount true 0 1)))) 5
  = Normal 6.
Proof.
  intros tr.
  destruct (X14_same_function_opens_no_stale_window add_fn Throw true 0 1
              [EventCallback.RunEffects EventCallback.Layout] 2 eq_refl)
    as [Hpending Hcall].
  split; [exact Hpending | exact (Hcall 5)].
Defined.

Lemma X15_witness :
  fst (Revision1.readValue "k" (VNum 7) (browser {[ "k" := "{" ]} []))
  = Normal VUndefined /\
  snd (Revision1.readValue "k" (VNum 7) (browser {[ "k" := "{" ]} []))
  = browser {[ "k" := "{" ]} [].
Proof.
  destruct (X15_revisions_read_alike sample_props (browser {[ "k" := "{" ]} []) eq_refl)
    as [Hfst Hsnd].
  split; [etransitivity; [exact Hfst | reflexivity] | exact Hsnd].
Defined.

Lemma X16_witness :
  fst (Revision1.setValue 0 "k" (VNum 7) (Updater failing_updater) server) = Normal tt /\
  snd (Revision1.setValue 0 "k" (VNum 7) (Updater failing_updater) server) = server.
Proof.
  destruct (X16_earlier_setter_is_silent 0 "k" (VNum 7) (Updater failing_updater) server)
    as (Hfst & _ & Hsnd).
  split; [exact Hfst | exact (Hsnd eq_refl)].
Defined.

Lemma X17_witness :
  let w := browser {[ "j" := "[]" ]}
             [local_listener 1 sample_props; local_listener 2 other_props] in
  cells (snd (Revision1.setValue 0 "k" (VNum 7) (Literal (VStr "x")) w)) !! 2
  = Some (VArr []) /\
  cells (snd (Revision1.setValue 0 "k" (VNum 7) (Literal (VStr "x")) w)) !! 1
  = Some (VStr "x").
Proof.
  intros w.
  destruct (X17_revisions_write_alike sample_scope (Literal (VStr "x")) w
              (document {[ "j" := "[]" ]}
                 [local_listener 1 sample_props; local_listener 2 other_props])
              eq_refl eq_refl)
    as [_ Hcells].
  - intros l Hl.
    apply elem_of_cons in Hl as [-> | Hl]; [reflexivity|].
    apply elem_of_cons in Hl as [-> | Hl]; [reflexivity|].
    apply elem_of_nil in Hl as [].
  - split; (etransitivity; [exact (f_equal (fun m => m !! _) Hcells) | reflexivity]).
Defined.

Lemma X18_witness :
  fst (readValue sample_props
         (snd (setValue sample_scope (Literal VUndefined) (browser ∅ []))))
  = Normal VUndefined /\
  console (snd (readValue sample_props
                  (snd (setValue sample_scope (Literal VUndefined) (browser ∅ [])))))
  = [].
Proof.
  destruct (X18_unstringifiable_reads_as_undefined sample_scope sample_props
              (Literal VUndefined) (browser ∅ []) (document ∅ []) (area ∅) VUndefined)
    as [_ Hread];
    [ reflexivity | reflexivity | reflexivity | reflexivity | reflexivity
    | reflexivity | reflexivity | reflexivity | ].
  rewrite Hread. split; reflexivity.
Defined.

(** On a server the effect installs the setter of the first render; from
    then on a call does nothing.  After a re-render alone, with no effect
    run yet, the call raises and changes nothing either. *)
Lemma C4_witness :
  let tr := [EventCallback.RunEffects EventCallback.Passive] in
  let tr' := [EventCallback.Render 1] in
  readValue sample_props server = (Normal (VNum 7), server) /\
  setValue sample_scope (Literal (VNum 1)) server = (Normal tt, server) /\
  setter (fun _ => sample_scope)
    (snd (EventCallback.exec false tr (snd (EventCallback.mount false 0 0))))
    (Literal (VNum 1)) server
  = (Normal tt, server) /\
  setter (fun _ => sample_scope)
    (snd (EventCallback.exec false tr' (snd (EventCallback.mount false 0 0))))
    (Literal (VNum 1)) server
  = (Throw EventCallback.rendering_error, server).
Proof.
  intros tr tr'.
  destruct (C4_no_window_reads_default_and_ignores_writes sample_props
              (Literal (VNum 1)) server (fun _ => sample_scope) 0 0 tr eq_refl)
    as (Hread & Hfn & Hset & _).
  destruct (C4_no_window_reads_default_and_ignores_writes sample_props
              (Literal (VNum 1)) server (fun _ => sample_scope) 0 0 tr' eq_refl)
    as (_ & _ & _ & Hthrow).
  split; [exact Hread|]. split; [exact (Hfn sample_scope)|].
  split; [exact (Hset eq_refl) | exact (Hthrow eq_refl)].
Defined.

(** C4 as stated fails for the setter a first render without window
    returns: before the hook's effect has run, calling it raises. *)
Lemma C4_counterexample :
  window server = None /\
  setter (fun _ => sample_scope) (snd (EventCallback.mount false 0 0))
    (Literal (VNum 1)) server
  = (Throw EventCallback.rendering_error, server).
Proof.
  split; reflexivity.
Defined.
